(** * Record-keeping tools over a relational store: repositories and formatters

    A shallow embedding of the three command-line programs of the
    repository:

    - [src/src/zad1.py]: owners and pets, raw SQL through [sqlite3];
    - [src/src/zad2.py]: owners and pets, through an object-relational
      mapper;
    - [src/examples/example1.py]: posts and workers, raw SQL.

    A database is the content of its two tables, each a list of rows in
    row-id order.  Every repository method is a function from the stored
    database to an outcome (a value or a raised exception) and the
    database that is stored afterwards.  The formatters are functions to
    the list of lines handed to [print].

    An [int] of the programs is an integer of any size; the engine
    stores signed 64-bit integers, refuses to bind any other, and has no
    key left for a table once the largest of them is stored there. *)

From Stdlib Require Import ZArith NArith List Bool Lia Ascii String DecimalString.
From Stdlib Require Import Permutation Sorted.
Import ListNotations.

Open Scope Z_scope.
Open Scope list_scope.
Open Scope string_scope.

(** ** Python strings

    A [str] is represented by its UTF-8 encoding, the form in which the
    storage engine keeps and compares it; its length, which the format
    mini-language uses for padding, counts code points. *)

Module PyStr.

(** A byte of the form [10xxxxxx] continues a code point. *)
Definition is_continuation (c : ascii) : bool :=
  match c with
  | Ascii _ _ _ _ _ _ b6 b7 => b7 && negb b6
  end.

(** [len(s)] *)
Fixpoint py_len (s : string) : nat :=
  match s with
  | EmptyString => 0%nat
  | String c t =>
      ((if is_continuation c then 0 else 1) + py_len t)%nat
  end.

(** [s * n] *)
Fixpoint repeat_str (s : string) (n : nat) : string :=
  match n with
  | O => EmptyString
  | S k => s ++ repeat_str s k
  end.

(** [format(s, '^w')]: the left margin is half of the padding, rounded
    down; a value wider than the field is left as it is. *)
Definition center (w : nat) (s : string) : string :=
  let n := py_len s in
  if (w <=? n)%nat then s
  else
    let pad := (w - n)%nat in
    let left := (pad / 2)%nat in
    repeat_str " " left ++ s ++ repeat_str " " (pad - left).

(** [str(z)] for an [int] *)
Definition str_int (z : Z) : string :=
  NilZero.string_of_int (Z.to_int z).

(** [a in b] *)
Definition Substring (a b : string) : Prop :=
  exists p q, b = p ++ a ++ q.

Fixpoint contains (a b : string) : bool :=
  String.prefix a b ||
  match b with
  | EmptyString => false
  | String _ t => contains a t
  end.

(** What reaches standard output after a sequence of [print] calls. *)
Fixpoint stdout_of (lines : list string) : string :=
  match lines with
  | [] => EmptyString
  | l :: rest => l ++ String "010" (stdout_of rest)
  end.

End PyStr.

Import PyStr.

(** ** Exceptions and operations on a stored database *)

(** The exceptions the programs raise or meet.  [IntegrityError] and
    [OperationalError] are the engine's, [sqlite3.IntegrityError] and
    [sqlite3.OperationalError], both subclasses of [sqlite3.Error];
    [OverflowError] and [ValueError] are the built-in ones. *)
Inductive exn : Type :=
| IntegrityError (msg : string)
| OperationalError (msg : string)
| OverflowError (msg : string)
| ValueError (msg : string).

(** [isinstance(e, sqlite3.Error)] *)
Definition is_sqlite_error (e : exn) : bool :=
  match e with
  | IntegrityError _ | OperationalError _ => true
  | OverflowError _ | ValueError _ => false
  end.

(** [isinstance(e, ValueError)] *)
Definition is_value_error (e : exn) : bool :=
  match e with
  | ValueError _ => true
  | _ => false
  end.

(** [str(e)] *)
Definition exn_message (e : exn) : string :=
  match e with
  | IntegrityError m => m
  | OperationalError m => m
  | OverflowError m => m
  | ValueError m => m
  end.

Inductive outcome (A : Type) : Type :=
| Returned (a : A)
| Raised (e : exn).
Arguments Returned {A} a.
Arguments Raised {A} e.

(** An operation reads the stored database and yields an outcome and the
    database stored when it ends.  A statement that fails is never
    committed. *)
Definition Op (S A : Type) : Type := S -> outcome A * S.

Definition ret {S A} (a : A) : Op S A := fun s => (Returned a, s).
Definition raise {S A} (e : exn) : Op S A := fun s => (Raised e, s).
Definition bind {S A B} (m : Op S A) (k : A -> Op S B) : Op S B :=
  fun s =>
    match m s with
    | (Returned a, s') => k a s'
    | (Raised e, s') => (Raised e, s')
    end.
Definition query {S A} (f : S -> A) : Op S A := fun s => (Returned (f s), s).

Notation "x <- m ;; k" := (bind m (fun x => k))
  (at level 61, m at next level, right associativity).

Definition result_of {S A} (r : outcome A * S) : outcome A := fst r.
Definition stored_after {S A} (r : outcome A * S) : S := snd r.

(** ** The storage engine *)

Module Sqlite.

(** An [INTEGER] is a signed 64-bit integer. *)
Definition int64_min : Z := -9223372036854775808.
Definition int64_max : Z := 9223372036854775807.

Definition fits (z : Z) : bool := (int64_min <=? z)%Z && (z <=? int64_max)%Z.

(** Binding the parameters of a statement: a Python [int] that is not a
    signed 64-bit integer makes [execute] raise [OverflowError] before
    the statement runs. *)
Definition too_large : exn :=
  OverflowError "Python int too large to convert to SQLite INTEGER".

Definition binding {S A : Type} (ints : list Z) (statement : Op S A) : Op S A :=
  if forallb fits ints then statement else raise too_large.

(** Row ids of an [INTEGER PRIMARY KEY AUTOINCREMENT] column.  Rows are
    never deleted by these programs, so the high-water mark that
    [AUTOINCREMENT] keeps is the largest stored key, and a new row takes
    the next integer; once the largest key there is, [int64_max], is
    stored, an insert fails: the engine reports that the database is
    full. *)
Definition max_rowid (ids : list Z) : Z := fold_right Z.max 0 ids.
Definition next_rowid (ids : list Z) : Z := max_rowid ids + 1.

Definition full : exn := OperationalError "database or disk is full".

Definition keys_left (ids : list Z) : bool := (max_rowid ids <? int64_max)%Z.

Definition new_rowid (ids : list Z) : outcome Z :=
  if keys_left ids then Returned (next_rowid ids) else Raised full.

(** [ORDER BY] on a text column, with the default [BINARY] collation:
    bytewise comparison, rows with equal keys kept in scan order. *)
Section OrderBy.
Context {A : Type} (key : A -> string).

Fixpoint insert_by (x : A) (l : list A) : list A :=
  match l with
  | [] => [x]
  | y :: t =>
      if String.leb (key x) (key y) then x :: l else y :: insert_by x t
  end.

Definition order_by (rows : list A) : list A :=
  fold_right insert_by [] rows.

(** Two rows in ascending order of their key. *)
Definition key_le (x y : A) : Prop := String.leb (key x) (key y) = true.
End OrderBy.

(** [cursor.fetchone()], [Query.first()] *)
Definition fetchone {A : Type} (rows : list A) : option A := hd_error rows.

End Sqlite.

(** ** The owners and pets schema (zad1, zad2) *)

Module owners.
Record row : Type := mk {
  owner_id : Z;
  owner_name : string;
  owner_phone : string
}.
End owners.

Module pets.
Record row : Type := mk {
  pet_id : Z;
  pet_name : string;
  pet_species : string;
  pet_breed : string;
  pet_age : Z;
  owner_id : Z
}.
End pets.

Module PetsDb.

Record t : Type := mk {
  owners_table : list owners.row;
  pets_table : list pets.row
}.

Definition empty : t := mk [] [].

Definition owner_exists (d : t) (oid : Z) : bool :=
  existsb (fun o => (owners.owner_id o =? oid)%Z) (owners_table d).

(** [INSERT INTO owners (owner_name, owner_phone) VALUES (?, ?)], into
    the table as [_create_db] declares it. *)
Definition insert_owner (name phone : string) : Op t Z :=
  fun d =>
    match Sqlite.new_rowid (map owners.owner_id (owners_table d)) with
    | Raised e => (Raised e, d)
    | Returned rid =>
        (Returned rid,
         mk (owners_table d ++ [owners.mk rid name phone])%list (pets_table d))
    end.

(** [INSERT INTO pets (pet_name, pet_species, pet_breed, pet_age,
    owner_id) VALUES (?, ?, ?, ?, ?)] on a connection whose foreign-key
    enforcement is [foreign_keys].  The parameters are bound first, the
    row id is taken next, and the foreign key is checked when the
    statement ends. *)
Definition insert_pet (foreign_keys : bool)
    (name species breed : string) (age oid : Z) : Op t Z :=
  Sqlite.binding [age; oid] (fun d =>
    match Sqlite.new_rowid (map pets.pet_id (pets_table d)) with
    | Raised e => (Raised e, d)
    | Returned rid =>
        if foreign_keys && negb (owner_exists d oid)
        then (Raised (IntegrityError "FOREIGN KEY constraint failed"), d)
        else
          (Returned rid,
           mk (owners_table d)
              (pets_table d ++ [pets.mk rid name species breed age oid])%list)
    end).

(** [SELECT ... FROM owners ORDER BY owner_name] *)
Definition select_owners : Op t (list owners.row) :=
  query (fun d => Sqlite.order_by owners.owner_name (owners_table d)).

(** [SELECT ... FROM owners WHERE owner_id = ?] *)
Definition select_owner_by_id (oid : Z) : Op t (list owners.row) :=
  Sqlite.binding [oid]
    (query (fun d =>
       filter (fun o => (owners.owner_id o =? oid)%Z) (owners_table d))).

(** [SELECT ... FROM pets p ORDER BY p.pet_name] *)
Definition select_pets : Op t (list pets.row) :=
  query (fun d => Sqlite.order_by pets.pet_name (pets_table d)).

(** [SELECT ... FROM pets p WHERE p.owner_id = ? ORDER BY p.pet_name] *)
Definition select_pets_by_owner (oid : Z) : Op t (list pets.row) :=
  Sqlite.binding [oid]
    (query (fun d =>
       Sqlite.order_by pets.pet_name
         (filter (fun p => (pets.owner_id p =? oid)%Z) (pets_table d)))).

(** Whether a key is left for one more owner, or one more pet. *)
Definition owner_keys_left (d : t) : bool :=
  Sqlite.keys_left (map owners.owner_id (owners_table d)).

Definition pet_keys_left (d : t) : bool :=
  Sqlite.keys_left (map pets.pet_id (pets_table d)).

(** The schema's constraints: [owner_id] is the primary key of
    [owners], and [pets.owner_id] references it. *)
Definition primary_key_ok (d : t) : Prop :=
  NoDup (map owners.owner_id (owners_table d)) /\
  NoDup (map pets.pet_id (pets_table d)).

Definition foreign_key_ok (d : t) : Prop :=
  forall p, In p (pets_table d) -> owner_exists d (pets.owner_id p) = true.

End PetsDb.

(** What one run of [main] leaves behind: the lines printed, the
    exception that escaped (if any) and the stored database. *)
Record run : Type := mk_run {
  printed : list string;
  escaped : option exn;
  stored : PetsDb.t
}.

(** The subcommands of the two pets programs, with the arguments the
    parser hands to [main]. *)
Inductive pets_command : Type :=
| cmd_add_owner (name phone : string)
| cmd_add_pet (name species breed : string) (age owner : Z)
| cmd_display_owners
| cmd_display_pets
| cmd_select_pets_by_owner (owner : Z).

(** ** zad1: the raw-SQL repository *)

Module Zad1.

Module Owner.
Record t : Type := mk { id : Z; name : string; phone : string }.
End Owner.

Module Pet.
Record t : Type := mk {
  id : Z; name : string; species : string; breed : string;
  age : Z; owner_id : Z
}.
End Pet.

Definition owner_of_row (row : owners.row) : Owner.t :=
  Owner.mk (owners.owner_id row) (owners.owner_name row) (owners.owner_phone row).

Definition pet_of_row (row : pets.row) : Pet.t :=
  Pet.mk (pets.pet_id row) (pets.pet_name row) (pets.pet_species row)
         (pets.pet_breed row) (pets.pet_age row) (pets.owner_id row).

(** [_connect] switches foreign-key enforcement on for every connection. *)
Definition foreign_keys : bool := true.

Definition add_owner (name phone : string) : Op PetsDb.t unit :=
  _ <- PetsDb.insert_owner name phone ;; ret tt.

Definition add_pet (name species breed : string) (age owner_id : Z)
  : Op PetsDb.t unit :=
  _ <- PetsDb.insert_pet foreign_keys name species breed age owner_id ;;
  ret tt.

Definition get_all_owners : Op PetsDb.t (list Owner.t) :=
  rows <- PetsDb.select_owners ;; ret (map owner_of_row rows).

Definition get_all_pets : Op PetsDb.t (list Pet.t) :=
  rows <- PetsDb.select_pets ;; ret (map pet_of_row rows).

Definition get_pets_by_owner (owner_id : Z) : Op PetsDb.t (list Pet.t) :=
  rows <- PetsDb.select_pets_by_owner owner_id ;; ret (map pet_of_row rows).

Definition get_owner_by_id (owner_id : Z) : Op PetsDb.t (option Owner.t) :=
  rows <- PetsDb.select_owner_by_id owner_id ;;
  match Sqlite.fetchone rows with
  | Some row => ret (Some (owner_of_row row))
  | None => ret None
  end.

Definition owner_cells (a b c : string) : string :=
  "| " ++ center 6 a ++ " | " ++ center 25 b ++ " | " ++ center 15 c ++ " |".

Definition display_owners (owners : list Owner.t) : list string :=
  match owners with
  | [] => ["Список владельцев пуст."]
  | _ =>
      let line :=
        "+" ++ repeat_str "-" 6 ++ "+" ++ repeat_str "-" 25 ++ "+"
            ++ repeat_str "-" 15 ++ "+" in
      ([line; owner_cells "ID" "Имя владельца" "Телефон"; line]
       ++ map (fun owner =>
                 owner_cells (str_int (Owner.id owner)) (Owner.name owner)
                             (Owner.phone owner)) owners
       ++ [line])%list
  end.

Definition pet_cells5 (a b c d e : string) : string :=
  "| " ++ center 6 a ++ " | " ++ center 15 b ++ " | " ++ center 15 c
       ++ " | " ++ center 20 d ++ " | " ++ center 6 e ++ " |".

Definition pet_cells6 (a b c d e f : string) : string :=
  "| " ++ center 6 a ++ " | " ++ center 15 b ++ " | " ++ center 15 c
       ++ " | " ++ center 20 d ++ " | " ++ center 6 e ++ " | "
       ++ center 15 f ++ " |".

Definition display_pets (pets : list Pet.t) (show_owner : bool) : list string :=
  match pets with
  | [] => ["Список животных пуст."]
  | _ =>
      if show_owner then
        let line :=
          "+" ++ repeat_str "-" 6 ++ "+" ++ repeat_str "-" 15 ++ "+"
              ++ repeat_str "-" 15 ++ "+" ++ repeat_str "-" 20 ++ "+"
              ++ repeat_str "-" 6 ++ "+" ++ repeat_str "-" 15 ++ "+" in
        ([line;
          pet_cells6 "ID" "Кличка" "Вид" "Порода" "Возраст" "ID владельца";
          line]
         ++ map (fun pet =>
                   pet_cells6 (str_int (Pet.id pet)) (Pet.name pet)
                     (Pet.species pet) (Pet.breed pet)
                     (str_int (Pet.age pet)) (str_int (Pet.owner_id pet)))
                pets
         ++ [line])%list
      else
        let line :=
          "+" ++ repeat_str "-" 6 ++ "+" ++ repeat_str "-" 15 ++ "+"
              ++ repeat_str "-" 15 ++ "+" ++ repeat_str "-" 20 ++ "+"
              ++ repeat_str "-" 6 ++ "+" in
        ([line; pet_cells5 "ID" "Кличка" "Вид" "Порода" "Возраст"; line]
         ++ map (fun pet =>
                   pet_cells5 (str_int (Pet.id pet)) (Pet.name pet)
                     (Pet.species pet) (Pet.breed pet)
                     (str_int (Pet.age pet)))
                pets
         ++ [line])%list
  end.

(** The [add_pet] branch of [main]: the owner is looked up first, and
    only [sqlite3.Error] is caught. *)
Definition main_add_pet (name species breed : string) (age owner : Z)
    (d : PetsDb.t) : run :=
  let on_error e d' :=
    if is_sqlite_error e
    then mk_run ["Ошибка при добавлении животного: " ++ exn_message e] None d'
    else mk_run [] (Some e) d' in
  match get_owner_by_id owner d with
  | (Raised e, d1) => on_error e d1
  | (Returned None, d1) =>
      mk_run ["Ошибка: Владелец с ID " ++ str_int owner ++ " не найден!"]
             None d1
  | (Returned (Some _), d1) =>
      match add_pet name species breed age owner d1 with
      | (Raised e, d2) => on_error e d2
      | (Returned _, d2) =>
          mk_run ["Животное '" ++ name ++ "' успешно добавлено!"] None d2
      end
  end.

(** [except sqlite3.Error as e: print(f"...: {e}")]; any other exception
    escapes. *)
Definition except_sqlite (prefix : string) (e : exn) (d : PetsDb.t) : run :=
  if is_sqlite_error e
  then mk_run [prefix ++ exn_message e] None d
  else mk_run [] (Some e) d.

Definition main_add_owner (name phone : string) (d : PetsDb.t) : run :=
  match add_owner name phone d with
  | (Returned _, d') =>
      mk_run ["Владелец '" ++ name ++ "' успешно добавлен!"] None d'
  | (Raised e, d') => except_sqlite "Ошибка при добавлении владельца: " e d'
  end.

Definition main_display_owners (d : PetsDb.t) : run :=
  match get_all_owners d with
  | (Returned owners, d') => mk_run (display_owners owners) None d'
  | (Raised e, d') =>
      except_sqlite "Ошибка при получении списка владельцев: " e d'
  end.

Definition main_display_pets (d : PetsDb.t) : run :=
  match get_all_pets d with
  | (Returned pets, d') => mk_run (display_pets pets true) None d'
  | (Raised e, d') =>
      except_sqlite "Ошибка при получении списка животных: " e d'
  end.

(** The [select_pets_by_owner] branch: the owner is looked up first; the
    title line comes after the query, so nothing is printed before an
    exception. *)
Definition main_select_pets_by_owner (owner_id : Z) (d : PetsDb.t) : run :=
  match get_owner_by_id owner_id d with
  | (Raised e, d1) => except_sqlite "Ошибка при выборке животных: " e d1
  | (Returned None, d1) =>
      mk_run ["Ошибка: Владелец с ID " ++ str_int owner_id ++ " не найден!"]
             None d1
  | (Returned (Some owner), d1) =>
      match get_pets_by_owner owner_id d1 with
      | (Raised e, d2) => except_sqlite "Ошибка при выборке животных: " e d2
      | (Returned pets, d2) =>
          mk_run
            (("Животные владельца '" ++ Owner.name owner ++ "' (ID: "
                ++ str_int (Owner.id owner) ++ "):")
             :: display_pets pets false)
            None d2
      end
  end.

(** [main], once the arguments are parsed and the repository is built,
    for a run with a subcommand (without one, [main] prints the parser's
    help). *)
Definition main (c : pets_command) (d : PetsDb.t) : run :=
  match c with
  | cmd_add_owner name phone => main_add_owner name phone d
  | cmd_add_pet name species breed age owner =>
      main_add_pet name species breed age owner d
  | cmd_display_owners => main_display_owners d
  | cmd_display_pets => main_display_pets d
  | cmd_select_pets_by_owner owner => main_select_pets_by_owner owner d
  end.

End Zad1.

(** ** zad2: the repository over the object-relational mapper *)

Module Zad2.

Module OwnerData.
Record t : Type := mk { id : Z; name : string; phone : string }.
End OwnerData.

Module PetData.
Record t : Type := mk {
  id : Z; name : string; species : string; breed : string;
  age : Z; owner_id : Z
}.
End PetData.

(** The mapped classes: one attribute per column. *)
Module OwnerModel.
Record t : Type := mk { id : Z; name : string; phone : string }.
Definition load (row : owners.row) : t :=
  mk (owners.owner_id row) (owners.owner_name row) (owners.owner_phone row).
End OwnerModel.

Module PetModel.
Record t : Type := mk {
  id : Z; name : string; species : string; breed : string;
  age : Z; owner_id : Z
}.
Definition load (row : pets.row) : t :=
  mk (pets.pet_id row) (pets.pet_name row) (pets.pet_species row)
     (pets.pet_breed row) (pets.pet_age row) (pets.owner_id row).
End PetModel.

Definition owner_data (owner : OwnerModel.t) : OwnerData.t :=
  OwnerData.mk (OwnerModel.id owner) (OwnerModel.name owner)
               (OwnerModel.phone owner).

Definition pet_data (pet : PetModel.t) : PetData.t :=
  PetData.mk (PetModel.id pet) (PetModel.name pet) (PetModel.species pet)
             (PetModel.breed pet) (PetModel.age pet) (PetModel.owner_id pet).

(** [session.query(OwnerModel).filter_by(id=owner_id).first()] *)
Definition query_owner_first (owner_id : Z) : Op PetsDb.t (option OwnerModel.t) :=
  rows <- PetsDb.select_owner_by_id owner_id ;;
  ret (option_map OwnerModel.load (Sqlite.fetchone rows)).

Definition not_found (owner_id : Z) : exn :=
  ValueError ("Владелец с ID " ++ str_int owner_id ++ " не найден").

(** The mapper writes to the tables of the schema above; [create_all]
    creates a table only when it is missing, and then without
    [AUTOINCREMENT], which changes what the engine does with an insert
    only once the largest key is stored: it then tries unused keys at
    random before it gives up.  The properties below that speak of an
    insert of the mapper-based repository with no key left hold either
    way. *)
Definition add_owner (name phone : string) : Op PetsDb.t unit :=
  _ <- PetsDb.insert_owner name phone ;; ret tt.

(** The engine is created without any pragma, so the enforcement of
    foreign keys is whatever the engine defaults to: [foreign_keys]. *)
Definition add_pet (foreign_keys : bool)
    (name species breed : string) (age owner_id : Z) : Op PetsDb.t unit :=
  owner <- query_owner_first owner_id ;;
  match owner with
  | None => raise (not_found owner_id)
  | Some _ =>
      _ <- PetsDb.insert_pet foreign_keys name species breed age owner_id ;;
      ret tt
  end.

Definition get_all_owners : Op PetsDb.t (list OwnerData.t) :=
  rows <- PetsDb.select_owners ;;
  ret (map owner_data (map OwnerModel.load rows)).

Definition get_all_pets : Op PetsDb.t (list PetData.t) :=
  rows <- PetsDb.select_pets ;;
  ret (map pet_data (map PetModel.load rows)).

Definition get_pets_by_owner (owner_id : Z) : Op PetsDb.t (list PetData.t) :=
  owner <- query_owner_first owner_id ;;
  match owner with
  | None => raise (not_found owner_id)
  | Some _ =>
      rows <- PetsDb.select_pets_by_owner owner_id ;;
      ret (map pet_data (map PetModel.load rows))
  end.

Definition get_owner_by_id (owner_id : Z) : Op PetsDb.t (option OwnerData.t) :=
  owner <- query_owner_first owner_id ;;
  match owner with
  | Some o => ret (Some (owner_data o))
  | None => ret None
  end.

(** An exception of the engine comes out of the mapper as the mapper
    re-raises it, unchanged or wrapped in a class of its own, which is
    never a [ValueError].  The operations above keep the engine's
    exception; what [str] gives for the exception the mapper raises in
    its place is [mapper_str]. *)
Definition str_of (mapper_str : exn -> string) (e : exn) : string :=
  match e with
  | ValueError m => m
  | _ => mapper_str e
  end.

(** [except Exception as e: print(f"...: {e}")] *)
Definition except_any (mapper_str : exn -> string)
    (prefix : string) (e : exn) (d : PetsDb.t) : run :=
  mk_run [prefix ++ str_of mapper_str e] None d.

(** [except ValueError as e: print(f"Ошибка: {e}")], then
    [except Exception as e: print(f"...: {e}")] *)
Definition except_value_error_then_any (mapper_str : exn -> string)
    (prefix : string) (e : exn) (d : PetsDb.t) : run :=
  if is_value_error e
  then mk_run ["Ошибка: " ++ exn_message e] None d
  else except_any mapper_str prefix e d.

(** The [add_pet] branch of [main]: [ValueError] has a handler of its
    own, before the one for every other exception. *)
Definition main_add_pet (mapper_str : exn -> string) (foreign_keys : bool)
    (name species breed : string) (age owner : Z) (d : PetsDb.t) : run :=
  match add_pet foreign_keys name species breed age owner d with
  | (Returned _, d') =>
      mk_run ["Животное '" ++ name ++ "' успешно добавлено!"] None d'
  | (Raised e, d') =>
      except_value_error_then_any mapper_str
        "Ошибка при добавлении животного: " e d'
  end.

Definition owner_cells (a b c : string) : string :=
  "| " ++ center 6 a ++ " | " ++ center 25 b ++ " | " ++ center 15 c ++ " |".

Definition display_owners (owners : list OwnerData.t) : list string :=
  match owners with
  | [] => ["Список владельцев пуст."]
  | _ =>
      let line :=
        "+" ++ repeat_str "-" 6 ++ "+" ++ repeat_str "-" 25 ++ "+"
            ++ repeat_str "-" 15 ++ "+" in
      ([line; owner_cells "ID" "Имя владельца" "Телефон"; line]
       ++ map (fun owner =>
                 owner_cells (str_int (OwnerData.id owner)) (OwnerData.name owner)
                             (OwnerData.phone owner)) owners
       ++ [line])%list
  end.

Definition pet_cells5 (a b c d e : string) : string :=
  "| " ++ center 6 a ++ " | " ++ center 15 b ++ " | " ++ center 15 c
       ++ " | " ++ center 20 d ++ " | " ++ center 6 e ++ " |".

Definition pet_cells6 (a b c d e f : string) : string :=
  "| " ++ center 6 a ++ " | " ++ center 15 b ++ " | " ++ center 15 c
       ++ " | " ++ center 20 d ++ " | " ++ center 6 e ++ " | "
       ++ center 15 f ++ " |".

Definition display_pets (pets : list PetData.t) (show_owner : bool) : list string :=
  match pets with
  | [] => ["Список животных пуст."]
  | _ =>
      if show_owner then
        let line :=
          "+" ++ repeat_str "-" 6 ++ "+" ++ repeat_str "-" 15 ++ "+"
              ++ repeat_str "-" 15 ++ "+" ++ repeat_str "-" 20 ++ "+"
              ++ repeat_str "-" 6 ++ "+" ++ repeat_str "-" 15 ++ "+" in
        ([line;
          pet_cells6 "ID" "Кличка" "Вид" "Порода" "Возраст" "ID владельца";
          line]
         ++ map (fun pet =>
                   pet_cells6 (str_int (PetData.id pet)) (PetData.name pet)
                     (PetData.species pet) (PetData.breed pet)
                     (str_int (PetData.age pet)) (str_int (PetData.owner_id pet)))
                pets
         ++ [line])%list
      else
        let line :=
          "+" ++ repeat_str "-" 6 ++ "+" ++ repeat_str "-" 15 ++ "+"
              ++ repeat_str "-" 15 ++ "+" ++ repeat_str "-" 20 ++ "+"
              ++ repeat_str "-" 6 ++ "+" in
        ([line; pet_cells5 "ID" "Кличка" "Вид" "Порода" "Возраст"; line]
         ++ map (fun pet =>
                   pet_cells5 (str_int (PetData.id pet)) (PetData.name pet)
                     (PetData.species pet) (PetData.breed pet)
                     (str_int (PetData.age pet)))
                pets
         ++ [line])%list
  end.

Definition main_add_owner (mapper_str : exn -> string)
    (name phone : string) (d : PetsDb.t) : run :=
  match add_owner name phone d with
  | (Returned _, d') =>
      mk_run ["Владелец '" ++ name ++ "' успешно добавлен!"] None d'
  | (Raised e, d') =>
      except_any mapper_str "Ошибка при добавлении владельца: " e d'
  end.

Definition main_display_owners (mapper_str : exn -> string) (d : PetsDb.t)
  : run :=
  match get_all_owners d with
  | (Returned owners, d') => mk_run (display_owners owners) None d'
  | (Raised e, d') =>
      except_any mapper_str "Ошибка при получении списка владельцев: " e d'
  end.

Definition main_display_pets (mapper_str : exn -> string) (d : PetsDb.t)
  : run :=
  match get_all_pets d with
  | (Returned pets, d') => mk_run (display_pets pets true) None d'
  | (Raised e, d') =>
      except_any mapper_str "Ошибка при получении списка животных: " e d'
  end.

(** The [select_pets_by_owner] branch: [main] looks the owner up itself
    before it calls [get_pets_by_owner], which looks it up again. *)
Definition main_select_pets_by_owner (mapper_str : exn -> string)
    (owner_id : Z) (d : PetsDb.t) : run :=
  match get_owner_by_id owner_id d with
  | (Raised e, d1) =>
      except_value_error_then_any mapper_str
        "Ошибка при выборке животных: " e d1
  | (Returned None, d1) =>
      mk_run ["Ошибка: Владелец с ID " ++ str_int owner_id ++ " не найден!"]
             None d1
  | (Returned (Some owner), d1) =>
      match get_pets_by_owner owner_id d1 with
      | (Raised e, d2) =>
          except_value_error_then_any mapper_str
            "Ошибка при выборке животных: " e d2
      | (Returned pets, d2) =>
          mk_run
            (("Животные владельца '" ++ OwnerData.name owner ++ "' (ID: "
                ++ str_int (OwnerData.id owner) ++ "):")
             :: display_pets pets false)
            None d2
      end
  end.

(** [main], once the arguments are parsed and the repository is built,
    for a run with a subcommand.  [foreign_keys] is the engine's default
    for the enforcement of foreign keys, and [mapper_str] the text of the
    exceptions the mapper raises. *)
Definition main (mapper_str : exn -> string) (foreign_keys : bool)
    (c : pets_command) (d : PetsDb.t) : run :=
  match c with
  | cmd_add_owner name phone => main_add_owner mapper_str name phone d
  | cmd_add_pet name species breed age owner =>
      main_add_pet mapper_str foreign_keys name species breed age owner d
  | cmd_display_owners => main_display_owners mapper_str d
  | cmd_display_pets => main_display_pets mapper_str d
  | cmd_select_pets_by_owner owner =>
      main_select_pets_by_owner mapper_str owner d
  end.

End Zad2.

(** ** example1: posts and workers *)

Module posts.
Record row : Type := mk { post_id : Z; post_title : string }.
End posts.

Module workers.
Record row : Type := mk {
  worker_id : Z;
  worker_name : string;
  post_id : Z;
  worker_year : Z
}.
End workers.

Module StaffDb.

Record t : Type := mk {
  posts_table : list posts.row;
  workers_table : list workers.row
}.

Definition empty : t := mk [] [].

Definition post_exists (d : t) (pid : Z) : bool :=
  existsb (fun p => (posts.post_id p =? pid)%Z) (posts_table d).

(** [SELECT post_id FROM posts WHERE post_title = ?] *)
Definition select_post_id (title : string) : Op t (list Z) :=
  query (fun d =>
    map posts.post_id
        (filter (fun p => String.eqb (posts.post_title p) title) (posts_table d))).

(** [INSERT INTO posts (post_title) VALUES (?)], giving [lastrowid] *)
Definition insert_post (title : string) : Op t Z :=
  fun d =>
    match Sqlite.new_rowid (map posts.post_id (posts_table d)) with
    | Raised e => (Raised e, d)
    | Returned rid =>
        (Returned rid,
         mk (posts_table d ++ [posts.mk rid title])%list (workers_table d))
    end.

(** [INSERT INTO workers (worker_name, post_id, worker_year)
    VALUES (?, ?, ?)] on a connection whose foreign-key enforcement is
    [foreign_keys].  The parameters are bound first, the row id is taken
    next, and the foreign key is checked when the statement ends. *)
Definition insert_worker (foreign_keys : bool)
    (name : string) (pid year : Z) : Op t Z :=
  Sqlite.binding [pid; year] (fun d =>
    match Sqlite.new_rowid (map workers.worker_id (workers_table d)) with
    | Raised e => (Raised e, d)
    | Returned rid =>
        if foreign_keys && negb (post_exists d pid)
        then (Raised (IntegrityError "FOREIGN KEY constraint failed"), d)
        else
          (Returned rid,
           mk (posts_table d)
              (workers_table d ++ [workers.mk rid name pid year])%list)
    end).

(** One row of [workers INNER JOIN posts ON posts.post_id =
    workers.post_id], with the three selected columns. *)
Definition joined : Type := (string * string * Z)%type.

Definition join_posts (d : t) (w : workers.row) : list joined :=
  map (fun p => (workers.worker_name w, posts.post_title p, workers.worker_year w))
      (filter (fun p => (posts.post_id p =? workers.post_id w)%Z) (posts_table d)).

Definition select_workers : Op t (list joined) :=
  query (fun d => flat_map (join_posts d) (workers_table d)).

(** The same join under [WHERE (strftime('%Y', date('now')) -
    workers.worker_year) >= ?]; [year_now] is the year the engine's
    clock gives. *)
Definition select_workers_by_period (year_now period : Z) : Op t (list joined) :=
  Sqlite.binding [period]
    (query (fun d =>
       filter (fun r => (year_now - snd r >=? period)%Z)
              (flat_map (join_posts d) (workers_table d)))).

(** The schema's constraints: [post_id] is the primary key of [posts],
    and [workers.post_id] references it. *)
Definition primary_key_ok (d : t) : Prop :=
  NoDup (map posts.post_id (posts_table d)).

Definition foreign_key_ok (d : t) : Prop :=
  forall w, In w (workers_table d) -> post_exists d (workers.post_id w) = true.

(** Whether a key is left for one more post, or one more worker. *)
Definition post_keys_left (d : t) : bool :=
  Sqlite.keys_left (map posts.post_id (posts_table d)).

Definition worker_keys_left (d : t) : bool :=
  Sqlite.keys_left (map workers.worker_id (workers_table d)).

(** Every stored post id is a signed 64-bit integer, as every integer
    the engine stores is. *)
Definition post_ids_fit (d : t) : bool :=
  forallb (fun p => Sqlite.fits (posts.post_id p)) (posts_table d).

End StaffDb.

Module Example1.

Module Post.
Record t : Type := mk { id : Z; title : string }.
End Post.

Module Worker.
Record t : Type := mk { name : string; post : string; year : Z }.
End Worker.

Definition worker_of_row (row : StaffDb.joined) : Worker.t :=
  Worker.mk (fst (fst row)) (snd (fst row)) (snd row).

Definition get_or_create_post (title : string) : Op StaffDb.t Z :=
  rows <- StaffDb.select_post_id title ;;
  match Sqlite.fetchone rows with
  | None => StaffDb.insert_post title
  | Some post_id => ret post_id
  end.

(** [_connect] sets no pragma: [foreign_keys] is the engine's default. *)
Definition add_worker (foreign_keys : bool)
    (name post : string) (year : Z) : Op StaffDb.t unit :=
  post_id <- get_or_create_post post ;;
  _ <- StaffDb.insert_worker foreign_keys name post_id year ;;
  ret tt.

Definition get_all_workers : Op StaffDb.t (list Worker.t) :=
  rows <- StaffDb.select_workers ;; ret (map worker_of_row rows).

Definition select_by_period (year_now period : Z) : Op StaffDb.t (list Worker.t) :=
  rows <- StaffDb.select_workers_by_period year_now period ;;
  ret (map worker_of_row rows).

(** [enumerate(l, start)] *)
Fixpoint enumerate {A : Type} (start : Z) (l : list A) : list (Z * A) :=
  match l with
  | [] => []
  | x :: t => (start, x) :: enumerate (start + 1) t
  end.

Definition worker_cells (a b c d : string) : string :=
  "| " ++ center 6 a ++ " | " ++ center 30 b ++ " | " ++ center 20 c
       ++ " | " ++ center 8 d ++ " |".

Definition display_workers (workers : list Worker.t) : list string :=
  match workers with
  | [] => ["Список работников пуст."]
  | _ =>
      let line :=
        "+" ++ repeat_str "-" 6 ++ "+" ++ repeat_str "-" 32 ++ "+"
            ++ repeat_str "-" 22 ++ "+" ++ repeat_str "-" 10 ++ "+" in
      ([line; worker_cells "№" "Ф.И.О." "Должность" "Год"; line]
       ++ map (fun iw =>
                 worker_cells (str_int (fst iw)) (Worker.name (snd iw))
                   (Worker.post (snd iw)) (str_int (Worker.year (snd iw))))
              (enumerate 1 workers)
       ++ [line])%list
  end.

(** The subcommands of the staff program. *)
Inductive command : Type :=
| cmd_add (name post : string) (year : Z)
| cmd_display
| cmd_select (period : Z).

Record run : Type := mk_run {
  printed : list string;
  escaped : option exn;
  stored : StaffDb.t
}.

(** [main], once the arguments are parsed and the repository is built;
    no branch catches anything.  [foreign_keys] is the engine's default
    and [year_now] the year its clock gives. *)
Definition main (foreign_keys : bool) (year_now : Z) (c : command) (d : StaffDb.t)
  : run :=
  match c with
  | cmd_add name post year =>
      match add_worker foreign_keys name post year d with
      | (Returned _, d') =>
          mk_run ["Работник " ++ name ++ " успешно добавлен!"] None d'
      | (Raised e, d') => mk_run [] (Some e) d'
      end
  | cmd_display =>
      match get_all_workers d with
      | (Returned workers, d') => mk_run (display_workers workers) None d'
      | (Raised e, d') => mk_run [] (Some e) d'
      end
  | cmd_select period =>
      match select_by_period year_now period d with
      | (Returned workers, d') => mk_run (display_workers workers) None d'
      | (Raised e, d') => mk_run [] (Some e) d'
      end
  end.

End Example1.

(** ** Vocabulary of the specification *)

(** Two repositories honour one contract on a call when both return, with
    the same field values and the same stored database, or both raise,
    with the same stored database. *)
Module Contract.





Section Agreement.
Context {A B T : Type} (view1 : A -> T) (view2 : B -> T).



End Agreement.

(** A record of the mapper-based program, read as one of the raw-SQL
    program with the same field values. *)
Definition owner_as_zad1 (o : Zad2.OwnerData.t) : Zad1.Owner.t :=
  Zad1.Owner.mk (Zad2.OwnerData.id o) (Zad2.OwnerData.name o) (Zad2.OwnerData.phone o).

Definition pet_as_zad1 (p : Zad2.PetData.t) : Zad1.Pet.t :=
  Zad1.Pet.mk (Zad2.PetData.id p) (Zad2.PetData.name p) (Zad2.PetData.species p)
              (Zad2.PetData.breed p) (Zad2.PetData.age p) (Zad2.PetData.owner_id p).

End Contract.



(** What a table is drawn with, and the labels of each table's header. *)
Definition newline : string := String "010" "".

Definition border_characters : list string := ["+"; "-"; "|"].

Definition owner_headers : list string := ["ID"; "Имя владельца"; "Телефон"].

Definition pet_headers (show_owner : bool) : list string :=
  (["ID"; "Кличка"; "Вид"; "Порода"; "Возраст"]
   ++ if show_owner then ["ID владельца"] else [])%list.

Definition worker_headers : list string := ["№"; "Ф.И.О."; "Должность"; "Год"].

(** The two ways a lookup-or-create can go: the title is found, and
    nothing is stored; or it is not, and a post with a fresh id is
    appended. *)
Inductive looked_up (d : StaffDb.t) (t : string) (i : Z) (d1 : StaffDb.t) : Prop :=
| found (p : posts.row) :
    In p (StaffDb.posts_table d) -> posts.post_title p = t ->
    posts.post_id p = i -> d1 = d -> looked_up d t i d1
| created :
    existsb (fun p => String.eqb (posts.post_title p) t) (StaffDb.posts_table d)
      = false ->
    i = Sqlite.next_rowid (map posts.post_id (StaffDb.posts_table d)) ->
    d1 = StaffDb.mk (StaffDb.posts_table d ++ [posts.mk i t])%list
                    (StaffDb.workers_table d) ->
    looked_up d t i d1.

(** The databases the staff program can build, starting from the empty
    one it creates, by its two writing operations. *)
Inductive staff_reachable : StaffDb.t -> Prop :=
| reach_empty : staff_reachable StaffDb.empty
| reach_post (d : StaffDb.t) (title : string) :
    staff_reachable d ->
    staff_reachable (stored_after (Example1.get_or_create_post title d))
| reach_worker (d : StaffDb.t) (fk : bool) (name post : string) (year : Z) :
    staff_reachable d ->
    staff_reachable (stored_after (Example1.add_worker fk name post year d)).

(** No two stored posts have the same title. *)
Definition titles_unique (d : StaffDb.t) : Prop :=
  NoDup (map posts.post_title (StaffDb.posts_table d)).

(** A record of the listing whose years of service reach the period. *)
Definition served (year_now period : Z) (w : Example1.Worker.t) : bool :=
  (year_now - Example1.Worker.year w >=? period)%Z.

(** The border line of each table, as the formatters build it. *)
Definition workers_border : string :=
  "+" ++ repeat_str "-" 6 ++ "+" ++ repeat_str "-" 32 ++ "+"
      ++ repeat_str "-" 22 ++ "+" ++ repeat_str "-" 10 ++ "+".

Definition owners_border : string :=
  "+" ++ repeat_str "-" 6 ++ "+" ++ repeat_str "-" 25 ++ "+"
      ++ repeat_str "-" 15 ++ "+".

Definition pets_border (show_owner : bool) : string :=
  if show_owner then
    "+" ++ repeat_str "-" 6 ++ "+" ++ repeat_str "-" 15 ++ "+"
        ++ repeat_str "-" 15 ++ "+" ++ repeat_str "-" 20 ++ "+"
        ++ repeat_str "-" 6 ++ "+" ++ repeat_str "-" 15 ++ "+"
  else
    "+" ++ repeat_str "-" 6 ++ "+" ++ repeat_str "-" 15 ++ "+"
        ++ repeat_str "-" 15 ++ "+" ++ repeat_str "-" 20 ++ "+"
        ++ repeat_str "-" 6 ++ "+".


(** ** Sample databases *)

Definition ann_and_rex : PetsDb.t :=
  PetsDb.mk [owners.mk 1 "Ann" "555"]
            [pets.mk 1 "Rex" "dog" "collie" 3 1; pets.mk 2 "Bim" "dog" "setter" 5 1].

Definition engineers : StaffDb.t :=
  StaffDb.mk [posts.mk 1 "Engineer"; posts.mk 2 "Clerk"]
             [workers.mk 1 "Alice" 1 2015; workers.mk 2 "Bob" 2 2024].

(** A posts table in which the largest key there is has been taken. *)
Definition last_key_taken : StaffDb.t :=
  StaffDb.mk [posts.mk 9223372036854775807 "Engineer"] [].


(** An owners table in which the largest key there is has been taken. *)
Definition last_owner_key_taken : PetsDb.t :=
  PetsDb.mk [owners.mk 9223372036854775807 "Ann" "555"] [].

(** * Properties *)

(** ** Sample runs *)

Example str_int_samples :
  str_int 0 = "0" /\ str_int 2015 = "2015" /\ str_int (-7) = "-7".
Proof. repeat split; reflexivity. Qed.

Example py_len_cyrillic : py_len "Кличка" = 6%nat /\ String.length "Кличка" = 12%nat.
Proof. split; reflexivity. Qed.

Example center_samples :
  center 6 "ID" = "  ID  " /\ center 6 "abc" = " abc  " /\
  center 2 "abc" = "abc" /\ center 8 "Год" = "  Год   ".
Proof. repeat split; reflexivity. Qed.

Example display_workers_sample :
  Example1.display_workers
    [Example1.Worker.mk "Alice" "Engineer" 2015; Example1.Worker.mk "Bob" "Clerk" 2020]
  = ["+------+--------------------------------+----------------------+----------+";
     "|   №    |             Ф.И.О.             |      Должность       |   Год    |";
     "+------+--------------------------------+----------------------+----------+";
     "|   1    |             Alice              |       Engineer       |   2015   |";
     "|   2    |              Bob               |        Clerk         |   2020   |";
     "+------+--------------------------------+----------------------+----------+"].
Proof. reflexivity. Qed.

Example add_then_list_sample :
  let d1 := stored_after (Example1.add_worker false "Alice" "Engineer" 2015 StaffDb.empty) in
  result_of (Example1.get_all_workers d1)
    = Returned [Example1.Worker.mk "Alice" "Engineer" 2015]
  /\ result_of (Example1.select_by_period 2026 8 d1)
    = Returned [Example1.Worker.mk "Alice" "Engineer" 2015]
  /\ result_of (Example1.select_by_period 2026 12 d1) = Returned [].
Proof. repeat split; reflexivity. Qed.

(** ** Strings *)

Section StringFacts.

Lemma append_assoc (a b c : string) : (a ++ b) ++ c = a ++ (b ++ c).
Proof. induction a as [|x a IH]; simpl; [reflexivity | now rewrite IH]. Qed.

Lemma append_empty_r (a : string) : a ++ "" = a.
Proof. induction a as [|x a IH]; simpl; [reflexivity | now rewrite IH]. Qed.

Lemma prefix_spec (a b : string) :
  String.prefix a b = true <-> exists q, b = a ++ q.
Proof.
  revert b; induction a as [|x a IH]; intros b.
  - split; [intros _; now exists b | intros _; now destruct b].
  - destruct b as [|y b]; simpl.
    + split; [discriminate | intros [q Hq]; discriminate].
    + destruct (Ascii.ascii_dec x y) as [->|Hxy].
      * rewrite IH. split; intros [q Hq]; exists q; simpl in *; congruence.
      * split; [discriminate | intros [q Hq]; simpl in Hq; congruence].
Qed.

Lemma Substring_refl (a : string) : Substring a a.
Proof. exists "", "". simpl. now rewrite append_empty_r. Qed.

Lemma Substring_between (p a q : string) : Substring a (p ++ a ++ q).
Proof. now exists p, q. Qed.

Lemma Substring_trans (a b c : string) :
  Substring a b -> Substring b c -> Substring a c.
Proof.
  intros [p [q ->]] [p' [q' ->]].
  exists (p' ++ p), (q ++ q'). now rewrite !append_assoc.
Qed.

Lemma Substring_left (a b c : string) : Substring a b -> Substring a (b ++ c).
Proof.
  intros [p [q ->]]. exists p, (q ++ c). now rewrite !append_assoc.
Qed.

Lemma Substring_right (a b c : string) : Substring a c -> Substring a (b ++ c).
Proof.
  intros [p [q ->]]. exists (b ++ p), q. now rewrite !append_assoc.
Qed.

Lemma Substring_cons (a : string) (x : ascii) (b : string) :
  Substring a b -> Substring a (String x b).
Proof. intros H. apply (Substring_right a (String x "") b H). Qed.

Lemma contains_spec (a b : string) : contains a b = true <-> Substring a b.
Proof.
  induction b as [|y b IH].
  - simpl. rewrite orb_false_r. destruct a as [|x a]; simpl.
    + split; [intros _; apply Substring_refl | reflexivity].
    + split; [discriminate |].
      intros [p [q H]]. destruct p; discriminate.
  - unfold contains; fold contains. rewrite orb_true_iff, IH, prefix_spec.
    split.
    + intros [[q ->] | H].
      * exists "", q. reflexivity.
      * now apply Substring_cons.
    + intros [p [q H]]. destruct p as [|z p]; simpl in H.
      * left. now exists q.
      * right. exists p, q. congruence.
Qed.

Lemma not_contains (a b : string) : contains a b = false -> ~ Substring a b.
Proof.
  intros H S. apply contains_spec in S. congruence.
Qed.

Lemma Substring_center (w : nat) (s : string) : Substring s (center w s).
Proof.
  unfold center. destruct (w <=? py_len s)%nat.
  - apply Substring_refl.
  - apply Substring_between.
Qed.

Lemma Substring_stdout (l : string) (lines : list string) :
  In l lines -> Substring l (stdout_of lines).
Proof.
  induction lines as [|x lines IH]; intros H; [destruct H |].
  destruct H as [-> | H]; simpl.
  - apply Substring_left, Substring_refl.
  - apply Substring_right, Substring_cons, IH, H.
Qed.

End StringFacts.

(** ** The engine: fresh row ids and ordering *)

Section EngineFacts.

Lemma max_rowid_ge (ids : list Z) (i : Z) :
  In i ids -> i <= Sqlite.max_rowid ids.
Proof.
  induction ids as [|x ids IH]; intros H; [destruct H |].
  simpl. destruct H as [-> | H]; [lia | specialize (IH H); lia].
Qed.

Lemma next_rowid_fresh (ids : list Z) : ~ In (Sqlite.next_rowid ids) ids.
Proof.
  intros H. apply max_rowid_ge in H. unfold Sqlite.next_rowid in H. lia.
Qed.

Context {A : Type} (key : A -> string).

Let by_key := Sqlite.key_le key.

Lemma insert_by_perm (x : A) (l : list A) :
  Permutation (x :: l) (Sqlite.insert_by key x l).
Proof.
  induction l as [|y l IH]; simpl; [reflexivity |].
  destruct (String.leb (key x) (key y)); [reflexivity |].
  rewrite perm_swap. now constructor.
Qed.

Lemma order_by_perm (l : list A) : Permutation l (Sqlite.order_by key l).
Proof.
  induction l as [|x l IH]; simpl; [constructor |].
  rewrite <- insert_by_perm. now constructor.
Qed.

Lemma insert_by_hdrel (x y : A) (l : list A) :
  by_key y x -> HdRel by_key y l -> HdRel by_key y (Sqlite.insert_by key x l).
Proof.
  intros Hyx H. destruct l as [|z l]; simpl.
  - now constructor.
  - inversion H; subst.
    destruct (String.leb (key x) (key z)); now constructor.
Qed.

Lemma insert_by_sorted (x : A) (l : list A) :
  Sorted by_key l -> Sorted by_key (Sqlite.insert_by key x l).
Proof.
  induction 1 as [|y l Hs IH Hd]; simpl.
  - repeat constructor.
  - destruct (String.leb (key x) (key y)) eqn:E.
    + constructor; [now constructor | now constructor].
    + constructor; [exact IH |].
      apply insert_by_hdrel; [| exact Hd].
      destruct (String.leb_total (key x) (key y)) as [H | H];
        [congruence | exact H].
Qed.

Lemma order_by_sorted (l : list A) : Sorted by_key (Sqlite.order_by key l).
Proof.
  induction l as [|x l IH]; simpl; [constructor | now apply insert_by_sorted].
Qed.

Lemma leb_trans (a b c : string) :
  String.leb a b = true -> String.leb b c = true -> String.leb a c = true.
Proof.
  unfold String.leb. revert b c.
  induction a as [|x a IH]; intros [|y b] [|z c]; simpl; try easy.
  destruct (Ascii.compare x y) eqn:E1; destruct (Ascii.compare y z) eqn:E2;
    try easy.
  - apply Ascii.compare_eq_iff in E1, E2. subst.
    replace (Ascii.compare z z) with Eq
      by (symmetry; unfold Ascii.compare; apply N.compare_refl).
    apply IH.
  - apply Ascii.compare_eq_iff in E1. subst. now rewrite E2.
  - apply Ascii.compare_eq_iff in E2. subst. now rewrite E1.
  - unfold Ascii.compare in *.
    rewrite N.compare_lt_iff in E1, E2.
    assert (H : (N_of_ascii x < N_of_ascii z)%N) by lia.
    apply N.compare_lt_iff in H. now rewrite H.
Qed.

(** Every row of the result is below all the rows after it. *)
Lemma order_by_ascending (l : list A) :
  StronglySorted by_key (Sqlite.order_by key l).
Proof.
  apply Sorted_StronglySorted; [| apply order_by_sorted].
  intros x y z. apply leb_trans.
Qed.

End EngineFacts.

Lemma ascending_map {A B : Type} (f : A -> B) (kA : A -> string) (kB : B -> string)
    (l : list A) :
  (forall a, kB (f a) = kA a) ->
  StronglySorted (Sqlite.key_le kA) l ->
  StronglySorted (Sqlite.key_le kB) (map f l).
Proof.
  intros Hk. induction 1 as [|x l Hs IH Hall]; simpl; constructor.
  - exact IH.
  - rewrite Forall_forall in *. intros y Hy.
    apply in_map_iff in Hy. destruct Hy as [a [<- Ha]].
    unfold Sqlite.key_le. rewrite !Hk. now apply Hall.
Qed.

Lemma filter_none {A : Type} (f : A -> bool) (l : list A) :
  existsb f l = false -> filter f l = [].
Proof.
  induction l as [|x l IH]; simpl; [reflexivity |].
  destruct (f x); simpl; [discriminate | exact IH].
Qed.

Lemma filter_some {A : Type} (f : A -> bool) (l : list A) :
  existsb f l = true -> exists x rest, filter f l = x :: rest /\ In x l /\ f x = true.
Proof.
  induction l as [|x l IH]; simpl; [discriminate |].
  destruct (f x) eqn:E; simpl.
  - intros _. exists x, (filter f l). auto.
  - intros H. destruct (IH H) as [y [rest [H1 [H2 H3]]]].
    exists y, rest. auto.
Qed.

Lemma NoDup_key_inj {A : Type} (key : A -> Z) (l : list A) (x y : A) :
  NoDup (map key l) -> In x l -> In y l -> key x = key y -> x = y.
Proof.
  induction l as [|a l IH]; simpl; intros Hnd Hx Hy Hk; [destruct Hx |].
  inversion Hnd as [|? ? Hnotin Hnd']; subst.
  destruct Hx as [-> | Hx], Hy as [-> | Hy]; auto.
  - exfalso. apply Hnotin. rewrite Hk. now apply in_map.
  - exfalso. apply Hnotin. rewrite <- Hk. now apply in_map.
Qed.

(** ** The engine: binding parameters and taking row ids *)

Lemma binding_fits {S A : Type} (ints : list Z) (statement : Op S A) :
  forallb Sqlite.fits ints = true -> Sqlite.binding ints statement = statement.
Proof. unfold Sqlite.binding. now intros ->. Qed.

Lemma binding_too_large {S A : Type} (ints : list Z) (statement : Op S A) :
  forallb Sqlite.fits ints = false ->
  Sqlite.binding ints statement = raise Sqlite.too_large.
Proof. unfold Sqlite.binding. now intros ->. Qed.

Lemma binding_one {S A : Type} (i : Z) (statement : Op S A) :
  Sqlite.fits i = true -> Sqlite.binding [i] statement = statement.
Proof. intros H. apply binding_fits. cbn [forallb]. now rewrite H. Qed.

Lemma binding_one_too_large {S A : Type} (i : Z) (statement : Op S A) :
  Sqlite.fits i = false -> Sqlite.binding [i] statement = raise Sqlite.too_large.
Proof. intros H. apply binding_too_large. cbn [forallb]. now rewrite H. Qed.

Lemma max_rowid_nonneg (ids : list Z) : 0 <= Sqlite.max_rowid ids.
Proof. induction ids as [|x ids IH]; simpl; lia. Qed.

Lemma new_rowid_left (ids : list Z) :
  Sqlite.keys_left ids = true ->
  Sqlite.new_rowid ids = Returned (Sqlite.next_rowid ids).
Proof. unfold Sqlite.new_rowid. now intros ->. Qed.

Lemma new_rowid_full (ids : list Z) :
  Sqlite.keys_left ids = false -> Sqlite.new_rowid ids = Raised Sqlite.full.
Proof. unfold Sqlite.new_rowid. now intros ->. Qed.

(** A row id the engine hands out is a signed 64-bit integer. *)
Lemma next_rowid_fits (ids : list Z) :
  Sqlite.keys_left ids = true -> Sqlite.fits (Sqlite.next_rowid ids) = true.
Proof.
  unfold Sqlite.keys_left, Sqlite.fits, Sqlite.next_rowid. intros H.
  apply Z.ltb_lt in H. pose proof (max_rowid_nonneg ids) as H0.
  unfold Sqlite.int64_min, Sqlite.int64_max in *.
  apply andb_true_intro. split; apply Z.leb_le; lia.
Qed.

(** ** Looking an owner up *)

Lemma select_owner_fits (d : PetsDb.t) (i : Z) :
  Sqlite.fits i = true ->
  PetsDb.select_owner_by_id i d
  = (Returned (filter (fun o => (owners.owner_id o =? i)%Z) (PetsDb.owners_table d)),
     d).
Proof.
  intros H. unfold PetsDb.select_owner_by_id. now rewrite (binding_one i _ H).
Qed.

Lemma select_owner_too_large (d : PetsDb.t) (i : Z) :
  Sqlite.fits i = false ->
  PetsDb.select_owner_by_id i d = (Raised Sqlite.too_large, d).
Proof.
  intros H. unfold PetsDb.select_owner_by_id.
  now rewrite (binding_one_too_large i _ H).
Qed.

Lemma zad1_get_owner_too_large (d : PetsDb.t) (i : Z) :
  Sqlite.fits i = false ->
  Zad1.get_owner_by_id i d = (Raised Sqlite.too_large, d).
Proof.
  intros H. unfold Zad1.get_owner_by_id, bind.
  now rewrite (select_owner_too_large d i H).
Qed.

Lemma zad2_query_owner_too_large (d : PetsDb.t) (i : Z) :
  Sqlite.fits i = false ->
  Zad2.query_owner_first i d = (Raised Sqlite.too_large, d).
Proof.
  intros H. unfold Zad2.query_owner_first, bind.
  now rewrite (select_owner_too_large d i H).
Qed.


Lemma select_pets_fits (d : PetsDb.t) (i : Z) :
  Sqlite.fits i = true ->
  PetsDb.select_pets_by_owner i d
  = (Returned
       (Sqlite.order_by pets.pet_name
          (filter (fun p => (pets.owner_id p =? i)%Z) (PetsDb.pets_table d))),
     d).
Proof.
  intros H. unfold PetsDb.select_pets_by_owner. now rewrite (binding_one i _ H).
Qed.

Lemma zad1_get_pets (d : PetsDb.t) (oid : Z) :
  Sqlite.fits oid = true ->
  Zad1.get_pets_by_owner oid d
  = (Returned
       (map Zad1.pet_of_row
          (Sqlite.order_by pets.pet_name
             (filter (fun p => (pets.owner_id p =? oid)%Z) (PetsDb.pets_table d)))),
     d).
Proof.
  intros H. unfold Zad1.get_pets_by_owner, bind.
  now rewrite (select_pets_fits d oid H).
Qed.

Lemma zad1_get_pets_too_large (d : PetsDb.t) (i : Z) :
  Sqlite.fits i = false ->
  Zad1.get_pets_by_owner i d = (Raised Sqlite.too_large, d).
Proof.
  intros H. unfold Zad1.get_pets_by_owner, bind, PetsDb.select_pets_by_owner.
  now rewrite (binding_one_too_large i _ H).
Qed.

Lemma zad2_get_pets_too_large (d : PetsDb.t) (i : Z) :
  Sqlite.fits i = false ->
  Zad2.get_pets_by_owner i d = (Raised Sqlite.too_large, d).
Proof.
  intros H. unfold Zad2.get_pets_by_owner, bind.
  now rewrite (zad2_query_owner_too_large d i H).
Qed.

(** ** Inserting a pet *)

(** The four ways the insert can go. *)
Lemma insert_pet_cases (d : PetsDb.t) (fk : bool)
    (name species breed : string) (age oid : Z) :
  (Sqlite.fits age && Sqlite.fits oid = false
   /\ PetsDb.insert_pet fk name species breed age oid d
      = (Raised Sqlite.too_large, d))
  \/ (Sqlite.fits age && Sqlite.fits oid = true
      /\ PetsDb.pet_keys_left d = false
      /\ PetsDb.insert_pet fk name species breed age oid d
         = (Raised Sqlite.full, d))
  \/ (Sqlite.fits age && Sqlite.fits oid = true
      /\ PetsDb.pet_keys_left d = true
      /\ fk && negb (PetsDb.owner_exists d oid) = true
      /\ PetsDb.insert_pet fk name species breed age oid d
         = (Raised (IntegrityError "FOREIGN KEY constraint failed"), d))
  \/ (Sqlite.fits age && Sqlite.fits oid = true
      /\ PetsDb.pet_keys_left d = true
      /\ fk && negb (PetsDb.owner_exists d oid) = false
      /\ PetsDb.insert_pet fk name species breed age oid d
         = (Returned (Sqlite.next_rowid (map pets.pet_id (PetsDb.pets_table d))),
            PetsDb.mk (PetsDb.owners_table d)
              (PetsDb.pets_table d
               ++ [pets.mk (Sqlite.next_rowid (map pets.pet_id (PetsDb.pets_table d)))
                     name species breed age oid])%list)).
Proof.
  unfold PetsDb.insert_pet, Sqlite.binding, PetsDb.pet_keys_left,
    Sqlite.new_rowid, raise.
  cbn [forallb]. rewrite andb_true_r.
  destruct (Sqlite.fits age && Sqlite.fits oid); [| now left].
  right.
  destruct (Sqlite.keys_left (map pets.pet_id (PetsDb.pets_table d)));
    [| now left].
  right.
  destruct (fk && negb (PetsDb.owner_exists d oid)); [left | right]; auto.
Qed.

(** Whatever the arguments, a pet whose owner is not stored is not
    stored by a connection that enforces foreign keys. *)
Lemma insert_pet_unknown_owner (d : PetsDb.t)
    (name species breed : string) (age oid : Z) :
  PetsDb.owner_exists d oid = false ->
  exists e, PetsDb.insert_pet true name species breed age oid d = (Raised e, d).
Proof.
  intros Hu.
  destruct (insert_pet_cases d true name species breed age oid)
    as [[_ H] | [[_ [_ H]] | [[_ [_ [_ H]]] | [_ [_ [C _]]]]]];
    try (eexists; exact H).
  rewrite Hu in C. discriminate C.
Qed.

Lemma insert_pet_unchecked (d : PetsDb.t) (fk : bool)
    (name species breed : string) (age oid : Z) :
  Sqlite.fits age = true -> Sqlite.fits oid = true ->
  PetsDb.pet_keys_left d = true ->
  PetsDb.owner_exists d oid = true ->
  PetsDb.insert_pet fk name species breed age oid d
  = (Returned (Sqlite.next_rowid (map pets.pet_id (PetsDb.pets_table d))),
     PetsDb.mk (PetsDb.owners_table d)
       (PetsDb.pets_table d
        ++ [pets.mk (Sqlite.next_rowid (map pets.pet_id (PetsDb.pets_table d)))
              name species breed age oid])%list).
Proof.
  intros Ha Ho Hl Hk.
  destruct (insert_pet_cases d fk name species breed age oid)
    as [[C _] | [[_ [C _]] | [[_ [_ [C _]]] | [_ [_ [_ H]]]]]].
  - rewrite Ha, Ho in C. discriminate C.
  - congruence.
  - rewrite Hk, andb_false_r in C. discriminate C.
  - exact H.
Qed.

(** With a stored owner, the enforcement of foreign keys makes no
    difference. *)
Lemma insert_pet_known_owner (d : PetsDb.t) (fk : bool)
    (name species breed : string) (age oid : Z) :
  PetsDb.owner_exists d oid = true ->
  PetsDb.insert_pet fk name species breed age oid d
  = PetsDb.insert_pet false name species breed age oid d.
Proof.
  intros Hk. unfold PetsDb.insert_pet, Sqlite.binding.
  destruct (forallb Sqlite.fits [age; oid]); [| reflexivity].
  now rewrite Hk, !andb_false_r.
Qed.

(** ** Pets referring to an owner that is not stored *)

Section UnknownOwner.

Variables (d : PetsDb.t) (oid : Z).
Hypothesis unknown : PetsDb.owner_exists d oid = false.
Hypothesis in_range : Sqlite.fits oid = true.

Lemma select_unknown_owner :
  PetsDb.select_owner_by_id oid d = (Returned [], d).
Proof.
  rewrite (select_owner_fits d oid in_range). do 2 f_equal.
  now apply filter_none.
Qed.

Lemma zad1_get_unknown_owner : Zad1.get_owner_by_id oid d = (Returned None, d).
Proof.
  unfold Zad1.get_owner_by_id, bind. now rewrite select_unknown_owner.
Qed.

Lemma zad2_query_unknown_owner : Zad2.query_owner_first oid d = (Returned None, d).
Proof.
  unfold Zad2.query_owner_first, bind. now rewrite select_unknown_owner.
Qed.


Lemma zad1_add_pet_unknown_owner (name species breed : string) (age : Z) :
  Sqlite.fits age = true -> PetsDb.pet_keys_left d = true ->
  Zad1.add_pet name species breed age oid d
  = (Raised (IntegrityError "FOREIGN KEY constraint failed"), d).
Proof.
  intros Ha Hl. unfold Zad1.add_pet, bind, Zad1.foreign_keys.
  destruct (insert_pet_cases d true name species breed age oid)
    as [[C _] | [[_ [C _]] | [[_ [_ [_ H]]] | [_ [_ [C _]]]]]].
  - rewrite Ha, in_range in C. discriminate C.
  - congruence.
  - now rewrite H.
  - rewrite unknown in C. discriminate C.
Qed.

Lemma zad2_add_pet_unknown_owner (fk : bool) (name species breed : string) (age : Z) :
  Zad2.add_pet fk name species breed age oid d = (Raised (Zad2.not_found oid), d).
Proof.
  unfold Zad2.add_pet, bind. now rewrite zad2_query_unknown_owner.
Qed.

Lemma zad2_get_pets_unknown_owner :
  Zad2.get_pets_by_owner oid d = (Raised (Zad2.not_found oid), d).
Proof.
  unfold Zad2.get_pets_by_owner, bind. now rewrite zad2_query_unknown_owner.
Qed.

End UnknownOwner.

Lemma zad1_add_pet_rejected (d : PetsDb.t)
    (name species breed : string) (age oid : Z) :
  PetsDb.owner_exists d oid = false ->
  exists e, Zad1.add_pet name species breed age oid d = (Raised e, d).
Proof.
  intros Hu. unfold Zad1.add_pet, bind, Zad1.foreign_keys.
  destruct (insert_pet_unknown_owner d name species breed age oid Hu) as [e ->].
  now exists e.
Qed.

Lemma zad1_add_pet_too_large (d : PetsDb.t)
    (name species breed : string) (age oid : Z) :
  Sqlite.fits age && Sqlite.fits oid = false ->
  Zad1.add_pet name species breed age oid d = (Raised Sqlite.too_large, d).
Proof.
  intros H. unfold Zad1.add_pet, bind.
  destruct (insert_pet_cases d Zad1.foreign_keys name species breed age oid)
    as [[_ E] | [[C _] | [[C _] | [C _]]]]; try congruence.
  now rewrite E.
Qed.

Lemma zad2_add_pet_too_large (d : PetsDb.t) (fk : bool)
    (name species breed : string) (age oid : Z) :
  Sqlite.fits oid = false ->
  Zad2.add_pet fk name species breed age oid d = (Raised Sqlite.too_large, d).
Proof.
  intros H. unfold Zad2.add_pet, bind.
  now rewrite (zad2_query_owner_too_large d oid H).
Qed.

(** The line [main] prints for a storage error never is the line it
    prints for a missing owner. *)
Lemma not_found_line_is_distinct (rest msg : string) :
  "Ошибка: " ++ rest <> "Ошибка при добавлении животного: " ++ msg.
Proof. simpl. intros H. inversion H. Qed.

(** C1, as stated, fails.  The owner id 2^63 matches no stored owner,
    yet adding a pet under it gives no "not found" or integrity signal:
    binding the id raises [OverflowError], which is neither a
    [ValueError] nor an [sqlite3.Error]; the [add_pet] command of the
    raw-SQL program prints nothing and lets it escape. *)
Lemma add_pet_owner_id_too_large :
  PetsDb.owner_exists PetsDb.empty 9223372036854775808 = false
  /\ Zad2.add_pet false "Rex" "dog" "collie" 3 9223372036854775808 PetsDb.empty
     = (Raised (OverflowError "Python int too large to convert to SQLite INTEGER"),
        PetsDb.empty)
  /\ Zad1.add_pet "Rex" "dog" "collie" 3 9223372036854775808 PetsDb.empty
     = (Raised (OverflowError "Python int too large to convert to SQLite INTEGER"),
        PetsDb.empty)
  /\ Zad1.main_add_pet "Rex" "dog" "collie" 3 9223372036854775808 PetsDb.empty
     = mk_run []
         (Some (OverflowError "Python int too large to convert to SQLite INTEGER"))
         PetsDb.empty
  /\ is_value_error Sqlite.too_large = false
  /\ is_sqlite_error Sqlite.too_large = false.
Proof. repeat split. Qed.

(** C1, amended.  Adding a pet whose [owner_id] matches no stored owner
    is always rejected with an exception and stores nothing, in both
    repositories and in the [add_pet] command of both programs.  When
    the id is a signed 64-bit integer, the signal is the "not found" one:
    the mapper-based repository raises [ValueError] with its "not found"
    message, which is no [sqlite3.Error]; the command of both programs
    prints the "not found" line, which differs from every line printed
    for a storage error; the raw-SQL repository itself raises
    [IntegrityError], provided the age can be bound and a pet key is
    left.  When the id is not a signed 64-bit integer, binding it raises
    [OverflowError] in both repositories: the raw-SQL program lets it
    escape and prints nothing, the mapper-based one prints the line for
    other errors. *)
Theorem add_pet_unknown_owner_rejected
    (mapper_str : exn -> string) (d : PetsDb.t) (fk : bool)
    (name species breed : string) (age oid : Z) :
  PetsDb.owner_exists d oid = false ->
  ((exists e, Zad2.add_pet fk name species breed age oid d = (Raised e, d))
   /\ (exists e, Zad1.add_pet name species breed age oid d = (Raised e, d))
   /\ stored (Zad2.main_add_pet mapper_str fk name species breed age oid d) = d
   /\ stored (Zad1.main_add_pet name species breed age oid d) = d)
  /\ (Sqlite.fits oid = true ->
      Zad2.add_pet fk name species breed age oid d
        = (Raised (ValueError ("Владелец с ID " ++ str_int oid ++ " не найден")), d)
      /\ is_sqlite_error (Zad2.not_found oid) = false
      /\ Zad2.main_add_pet mapper_str fk name species breed age oid d
        = mk_run ["Ошибка: Владелец с ID " ++ str_int oid ++ " не найден"] None d
      /\ Zad1.main_add_pet name species breed age oid d
        = mk_run ["Ошибка: Владелец с ID " ++ str_int oid ++ " не найден!"] None d
      /\ (Sqlite.fits age = true -> PetsDb.pet_keys_left d = true ->
          Zad1.add_pet name species breed age oid d
          = (Raised (IntegrityError "FOREIGN KEY constraint failed"), d))
      /\ (forall msg,
            printed (Zad1.main_add_pet name species breed age oid d)
              <> ["Ошибка при добавлении животного: " ++ msg]
            /\ printed (Zad2.main_add_pet mapper_str fk name species breed age oid d)
              <> ["Ошибка при добавлении животного: " ++ msg]))
  /\ (Sqlite.fits oid = false ->
      Zad2.add_pet fk name species breed age oid d = (Raised Sqlite.too_large, d)
      /\ Zad1.add_pet name species breed age oid d = (Raised Sqlite.too_large, d)
      /\ Zad2.main_add_pet mapper_str fk name species breed age oid d
        = mk_run ["Ошибка при добавлении животного: " ++ mapper_str Sqlite.too_large]
                 None d
      /\ Zad1.main_add_pet name species breed age oid d
        = mk_run [] (Some Sqlite.too_large) d).
Proof.
  intros H.
  assert (In_range : Sqlite.fits oid = true ->
    Zad2.add_pet fk name species breed age oid d = (Raised (Zad2.not_found oid), d)
    /\ Zad2.main_add_pet mapper_str fk name species breed age oid d
       = mk_run ["Ошибка: Владелец с ID " ++ str_int oid ++ " не найден"] None d
    /\ Zad1.main_add_pet name species breed age oid d
       = mk_run ["Ошибка: Владелец с ID " ++ str_int oid ++ " не найден!"] None d).
  { intros Hf.
    pose proof (zad2_add_pet_unknown_owner d oid H Hf fk name species breed age) as H2.
    split; [exact H2 | split].
    - unfold Zad2.main_add_pet. rewrite H2. reflexivity.
    - unfold Zad1.main_add_pet. now rewrite (zad1_get_unknown_owner d oid H Hf). }
  assert (Too_large : Sqlite.fits oid = false ->
    Zad2.add_pet fk name species breed age oid d = (Raised Sqlite.too_large, d)
    /\ Zad1.add_pet name species breed age oid d = (Raised Sqlite.too_large, d)
    /\ Zad2.main_add_pet mapper_str fk name species breed age oid d
       = mk_run ["Ошибка при добавлении животного: " ++ mapper_str Sqlite.too_large]
                None d
    /\ Zad1.main_add_pet name species breed age oid d
       = mk_run [] (Some Sqlite.too_large) d).
  { intros Hf.
    pose proof (zad2_add_pet_too_large d fk name species breed age oid Hf) as H2.
    split; [exact H2 | split; [| split]].
    - apply zad1_add_pet_too_large. now rewrite Hf, andb_false_r.
    - unfold Zad2.main_add_pet. rewrite H2. reflexivity.
    - unfold Zad1.main_add_pet. now rewrite (zad1_get_owner_too_large d oid Hf). }
  split; [| split; [| exact Too_large]].
  - destruct (Sqlite.fits oid) eqn:Hf.
    + destruct (In_range eq_refl) as [H2 [M2 M1]].
      split; [eexists; exact H2 |].
      split; [now apply zad1_add_pet_rejected |].
      now rewrite M2, M1.
    + destruct (Too_large eq_refl) as [H2 [H1 [M2 M1]]].
      split; [eexists; exact H2 |].
      split; [eexists; exact H1 |].
      now rewrite M2, M1.
  - intros Hf. destruct (In_range Hf) as [H2 [M2 M1]].
    refine (conj H2 (conj eq_refl (conj M2 (conj M1 (conj _ _))))).
    + now apply zad1_add_pet_unknown_owner.
    + intros msg. rewrite M1, M2. simpl.
      split; intros E; apply (f_equal (hd "")) in E; simpl in E;
        revert E; apply not_found_line_is_distinct.
Qed.

Lemma add_pet_unknown_owner_rejected_witness :
  Zad2.add_pet false "Rex" "dog" "collie" 3 7 PetsDb.empty
    = (Raised (ValueError "Владелец с ID 7 не найден"), PetsDb.empty)
  /\ Zad1.main_add_pet "Rex" "dog" "collie" 3 7 PetsDb.empty
    = mk_run ["Ошибка: Владелец с ID 7 не найден!"] None PetsDb.empty.
Proof.
  pose proof (proj1 (proj2 (add_pet_unknown_owner_rejected exn_message PetsDb.empty
                false "Rex" "dog" "collie" 3 7 eq_refl)) eq_refl) as H.
  split; [exact (proj1 H) | exact (proj1 (proj2 (proj2 (proj2 H))))].
Defined.

(** ** Pets referring to a stored owner *)

Section KnownOwner.

Variables (d : PetsDb.t) (oid : Z).
Hypothesis known : PetsDb.owner_exists d oid = true.
Hypothesis in_range : Sqlite.fits oid = true.

Lemma zad2_query_known_owner :
  exists o, Zad2.query_owner_first oid d = (Returned (Some o), d).
Proof.
  unfold Zad2.query_owner_first, bind.
  rewrite (select_owner_fits d oid in_range).
  destruct (filter_some _ _ known) as [x [rest [-> _]]].
  simpl. now exists (Zad2.OwnerModel.load x).
Qed.

Lemma zad2_add_pet_known_owner (fk : bool) (name species breed : string) (age : Z) :
  Zad2.add_pet fk name species breed age oid d
  = Zad1.add_pet name species breed age oid d.
Proof.
  unfold Zad2.add_pet, Zad1.add_pet, bind.
  destruct zad2_query_known_owner as [o ->].
  now rewrite (insert_pet_known_owner d fk _ _ _ _ _ known),
    (insert_pet_known_owner d Zad1.foreign_keys _ _ _ _ _ known).
Qed.

Lemma zad1_add_pet_known_owner (name species breed : string) (age : Z) :
  Sqlite.fits age = true -> PetsDb.pet_keys_left d = true ->
  Zad1.add_pet name species breed age oid d
  = (Returned tt,
     PetsDb.mk (PetsDb.owners_table d)
       (PetsDb.pets_table d
        ++ [pets.mk (Sqlite.next_rowid (map pets.pet_id (PetsDb.pets_table d)))
              name species breed age oid])%list).
Proof.
  intros Ha Hl. unfold Zad1.add_pet, bind.
  now rewrite (insert_pet_unchecked d Zad1.foreign_keys name species breed age oid
                 Ha in_range Hl known).
Qed.

Lemma zad2_get_pets_known_owner :
  Zad2.get_pets_by_owner oid d
  = (Returned
       (map Zad2.pet_data
          (map Zad2.PetModel.load
             (Sqlite.order_by pets.pet_name
                (filter (fun p => (pets.owner_id p =? oid)%Z) (PetsDb.pets_table d))))),
     d).
Proof.
  unfold Zad2.get_pets_by_owner, bind.
  destruct zad2_query_known_owner as [o ->].
  now rewrite (select_pets_fits d oid in_range).
Qed.

End KnownOwner.



Lemma add_owner_left (d : PetsDb.t) (name phone : string) :
  PetsDb.owner_keys_left d = true ->
  Zad1.add_owner name phone d
  = (Returned tt,
     PetsDb.mk
       (PetsDb.owners_table d
        ++ [owners.mk (Sqlite.next_rowid (map owners.owner_id (PetsDb.owners_table d)))
              name phone])%list
       (PetsDb.pets_table d)).
Proof.
  intros H. unfold Zad1.add_owner, bind, PetsDb.insert_owner.
  now rewrite (new_rowid_left _ H).
Qed.

Lemma add_owner_full (d : PetsDb.t) (name phone : string) :
  PetsDb.owner_keys_left d = false ->
  Zad1.add_owner name phone d = (Raised Sqlite.full, d).
Proof.
  intros H. unfold Zad1.add_owner, bind, PetsDb.insert_owner.
  now rewrite (new_rowid_full _ H).
Qed.

(** ** The two repositories side by side *)




(** ** Listing the pets of one owner *)

Lemma filter_map_commute {A B : Type} (f : A -> B) (p : B -> bool) (l : list A) :
  filter p (map f l) = map f (filter (fun a => p (f a)) l).
Proof.
  induction l as [|x l IH]; simpl; [reflexivity |].
  destruct (p (f x)); simpl; now rewrite IH.
Qed.

Lemma zad1_pets_by_owner_listed (d : PetsDb.t) (i : Z) :
  Permutation
    (map Zad1.pet_of_row
       (Sqlite.order_by pets.pet_name
          (filter (fun p => (pets.owner_id p =? i)%Z) (PetsDb.pets_table d))))
    (filter (fun p => (Zad1.Pet.owner_id p =? i)%Z)
            (map Zad1.pet_of_row (PetsDb.pets_table d))).
Proof.
  rewrite filter_map_commute. apply Permutation_map.
  symmetry. apply order_by_perm.
Qed.

Lemma zad2_pets_by_owner_listed (d : PetsDb.t) (i : Z) :
  Permutation
    (map Zad2.pet_data
       (map Zad2.PetModel.load
          (Sqlite.order_by pets.pet_name
             (filter (fun p => (pets.owner_id p =? i)%Z) (PetsDb.pets_table d)))))
    (filter (fun p => (Zad2.PetData.owner_id p =? i)%Z)
            (map Zad2.pet_data (map Zad2.PetModel.load (PetsDb.pets_table d)))).
Proof.
  rewrite !map_map, filter_map_commute. apply Permutation_map.
  symmetry. apply order_by_perm.
Qed.

(** C5, as stated, fails for the mapper-based repository.  On a database
    without owners no pet is stored under owner 1, yet the call does not
    return the empty list: it raises [ValueError]. *)
Lemma zad2_get_pets_by_owner_raises :
  Zad2.get_pets_by_owner 1 PetsDb.empty
  = (Raised (ValueError "Владелец с ID 1 не найден"), PetsDb.empty)
  /\ ~ exists recs,
       result_of (Zad2.get_pets_by_owner 1 PetsDb.empty) = Returned recs.
Proof.
  split; [reflexivity |]. intros [recs H]. discriminate H.
Qed.

(** C5, amended.  For every database and every owner id [i] that is a
    signed 64-bit integer, the raw-SQL [get_pets_by_owner i] returns
    exactly the stored pets whose [owner_id] is [i] (each once, no
    other), in ascending bytewise order of their names, and stores
    nothing.  The mapper-based one does the same whenever an owner with
    id [i] is stored, and raises its "not found" [ValueError] otherwise.
    For an id that is not a signed 64-bit integer, both raise, the
    raw-SQL one [OverflowError], and store nothing. *)
Theorem get_pets_by_owner_exact (d : PetsDb.t) (i : Z) :
  (Sqlite.fits i = true ->
   exists recs,
     Zad1.get_pets_by_owner i d = (Returned recs, d)
     /\ Permutation recs
          (filter (fun p => (Zad1.Pet.owner_id p =? i)%Z)
                  (map Zad1.pet_of_row (PetsDb.pets_table d)))
     /\ StronglySorted (Sqlite.key_le Zad1.Pet.name) recs)
  /\ (Sqlite.fits i = true -> PetsDb.owner_exists d i = true ->
      exists recs,
        Zad2.get_pets_by_owner i d = (Returned recs, d)
        /\ Permutation recs
             (filter (fun p => (Zad2.PetData.owner_id p =? i)%Z)
                     (map Zad2.pet_data (map Zad2.PetModel.load (PetsDb.pets_table d))))
        /\ StronglySorted (Sqlite.key_le Zad2.PetData.name) recs)
  /\ (Sqlite.fits i = true -> PetsDb.owner_exists d i = false ->
      Zad2.get_pets_by_owner i d
      = (Raised (ValueError ("Владелец с ID " ++ str_int i ++ " не найден")), d))
  /\ (Sqlite.fits i = false ->
      Zad1.get_pets_by_owner i d = (Raised Sqlite.too_large, d)
      /\ exists e, Zad2.get_pets_by_owner i d = (Raised e, d)).
Proof.
  split; [| split; [| split]].
  - intros Hi. eexists. split; [now apply zad1_get_pets | split].
    + apply zad1_pets_by_owner_listed.
    + apply (ascending_map Zad1.pet_of_row pets.pet_name); [reflexivity |].
      apply order_by_ascending.
  - intros Hi Hk. eexists. split; [now apply zad2_get_pets_known_owner | split].
    + apply zad2_pets_by_owner_listed.
    + rewrite map_map.
      apply (ascending_map _ pets.pet_name); [reflexivity |].
      apply order_by_ascending.
  - intros Hi Hu. now apply zad2_get_pets_unknown_owner.
  - intros Hi. split; [now apply zad1_get_pets_too_large |].
    eexists. now apply zad2_get_pets_too_large.
Qed.

Lemma get_pets_by_owner_exact_witness :
  (exists recs,
      Zad2.get_pets_by_owner 1 ann_and_rex = (Returned recs, ann_and_rex)
      /\ Permutation recs
           (filter (fun p => (Zad2.PetData.owner_id p =? 1)%Z)
                   (map Zad2.pet_data
                        (map Zad2.PetModel.load (PetsDb.pets_table ann_and_rex))))
      /\ StronglySorted (Sqlite.key_le Zad2.PetData.name) recs)
  /\ Zad2.get_pets_by_owner 2 ann_and_rex
     = (Raised (ValueError "Владелец с ID 2 не найден"), ann_and_rex)
  /\ Zad1.get_pets_by_owner 9223372036854775808 ann_and_rex
     = (Raised Sqlite.too_large, ann_and_rex).
Proof.
  split; [| split].
  - exact (proj1 (proj2 (get_pets_by_owner_exact ann_and_rex 1)) eq_refl eq_refl).
  - exact (proj1 (proj2 (proj2 (get_pets_by_owner_exact ann_and_rex 2)))
                 eq_refl eq_refl).
  - exact (proj1 (proj2 (proj2 (proj2
             (get_pets_by_owner_exact ann_and_rex 9223372036854775808))) eq_refl)).
Defined.

Example get_pets_by_owner_sample :
  result_of (Zad1.get_pets_by_owner 1 ann_and_rex)
  = Returned [Zad1.Pet.mk 2 "Bim" "dog" "setter" 5 1;
              Zad1.Pet.mk 1 "Rex" "dog" "collie" 3 1].
Proof. reflexivity. Qed.

(** ** Posts: lookup or creation *)

Section GetOrCreatePost.

Let has_title (t : string) : posts.row -> bool :=
  fun p => String.eqb (posts.post_title p) t.

(** The lookup-or-create either returns, in one of its two ways, or
    finds neither the title nor a key for a new post. *)
Lemma get_or_create_post_spec (d : StaffDb.t) (t : string) :
  (exists i d1,
      Example1.get_or_create_post t d = (Returned i, d1) /\ looked_up d t i d1)
  \/ (existsb (fun p => String.eqb (posts.post_title p) t) (StaffDb.posts_table d)
      = false
      /\ StaffDb.post_keys_left d = false
      /\ Example1.get_or_create_post t d = (Raised Sqlite.full, d)).
Proof.
  unfold Example1.get_or_create_post, bind, StaffDb.select_post_id, query.
  destruct (existsb (has_title t) (StaffDb.posts_table d)) eqn:E.
  - left. destruct (filter_some _ _ E) as [p [rest [Hf [Hin Ht]]]].
    unfold has_title in Hf. rewrite Hf. simpl.
    exists (posts.post_id p), d. split; [reflexivity |].
    apply (found d t _ d p); auto. now apply String.eqb_eq.
  - pose proof (filter_none _ _ E) as Hf.
    unfold has_title in Hf, E. rewrite Hf. simpl.
    unfold StaffDb.insert_post, Sqlite.new_rowid.
    destruct (Sqlite.keys_left (map posts.post_id (StaffDb.posts_table d))) eqn:K.
    + left. eexists _, _. split; [reflexivity |]. now apply created.
    + right. auto.
Qed.

Lemma get_or_create_post_looked_up (d : StaffDb.t) (t : string) (i : Z)
    (d1 : StaffDb.t) :
  Example1.get_or_create_post t d = (Returned i, d1) -> looked_up d t i d1.
Proof.
  intros H. destruct (get_or_create_post_spec d t) as [[i' [d1' [H' L]]] | [_ [_ H']]];
    rewrite H in H'; [| discriminate H'].
  injection H' as <- <-. exact L.
Qed.

Lemma get_or_create_post_returns (d : StaffDb.t) (t : string) :
  StaffDb.post_keys_left d = true ->
  exists i d1,
    Example1.get_or_create_post t d = (Returned i, d1) /\ looked_up d t i d1.
Proof.
  intros K. destruct (get_or_create_post_spec d t) as [H | [_ [K' _]]];
    [exact H | congruence].
Qed.

Lemma get_or_create_post_finds (d : StaffDb.t) (t : string) :
  In t (map posts.post_title (StaffDb.posts_table d)) ->
  exists i, Example1.get_or_create_post t d = (Returned i, d).
Proof.
  intros Hin. apply in_map_iff in Hin. destruct Hin as [p [Ht Hin]].
  assert (E : existsb (has_title t) (StaffDb.posts_table d) = true).
  { apply existsb_exists. exists p. split; [exact Hin |].
    unfold has_title. now apply String.eqb_eq. }
  unfold Example1.get_or_create_post, bind, StaffDb.select_post_id, query.
  destruct (filter_some _ _ E) as [q [rest [Hf _]]].
  unfold has_title in Hf. rewrite Hf. simpl. now exists (posts.post_id q).
Qed.

Lemma get_or_create_post_full (d : StaffDb.t) (t : string) :
  ~ In t (map posts.post_title (StaffDb.posts_table d)) ->
  StaffDb.post_keys_left d = false ->
  Example1.get_or_create_post t d = (Raised Sqlite.full, d).
Proof.
  intros Hno K.
  assert (E : existsb (has_title t) (StaffDb.posts_table d) = false).
  { apply not_true_is_false. intros E. apply existsb_exists in E.
    destruct E as [p [Hin Ht]]. unfold has_title in Ht.
    apply String.eqb_eq in Ht. apply Hno. rewrite <- Ht. now apply in_map. }
  unfold Example1.get_or_create_post, bind, StaffDb.select_post_id, query.
  pose proof (filter_none _ _ E) as Hf. unfold has_title in Hf. rewrite Hf.
  simpl. unfold StaffDb.insert_post.
  now rewrite (new_rowid_full _ K).
Qed.

(** What is stored after the call: the database as it was, or the one
    the lookup left. *)
Lemma get_or_create_post_stored (d : StaffDb.t) (t : string) :
  stored_after (Example1.get_or_create_post t d) = d
  \/ exists i, looked_up d t i (stored_after (Example1.get_or_create_post t d)).
Proof.
  destruct (get_or_create_post_spec d t) as [[i [d1 [H L]]] | [_ [_ H]]];
    rewrite H; [right; now exists i | now left].
Qed.

Lemma post_exists_in (d : StaffDb.t) (p : posts.row) :
  In p (StaffDb.posts_table d) -> StaffDb.post_exists d (posts.post_id p) = true.
Proof.
  intros H. unfold StaffDb.post_exists. apply existsb_exists.
  exists p. split; [exact H | apply Z.eqb_refl].
Qed.

Lemma looked_up_exists (d : StaffDb.t) (t : string) (i : Z) (d1 : StaffDb.t) :
  looked_up d t i d1 ->
  exists p, In p (StaffDb.posts_table d1)
            /\ posts.post_id p = i /\ posts.post_title p = t.
Proof.
  intros [p Hin Ht Hi -> | Hno Hi ->].
  - now exists p.
  - exists (posts.mk i t). simpl. split; [| split; reflexivity].
    apply in_or_app. right. now left.
Qed.

(** A second call with the same title finds what the first one left. *)
Lemma get_or_create_post_again (d : StaffDb.t) (t : string) (i : Z) (d1 : StaffDb.t) :
  Example1.get_or_create_post t d = (Returned i, d1) ->
  Example1.get_or_create_post t d1 = (Returned i, d1).
Proof.
  intros H1.
  destruct (get_or_create_post_looked_up d t i d1 H1)
    as [p Hin Ht Hi -> | Hno Hi ->]; [exact H1 |].
  unfold Example1.get_or_create_post, bind, StaffDb.select_post_id, query.
  cbn [StaffDb.posts_table]. rewrite filter_app.
  assert (Hf : filter (fun p => String.eqb (posts.post_title p) t)
                      (StaffDb.posts_table d) = [])
    by exact (filter_none _ _ Hno).
  rewrite Hf. cbn [filter app posts.post_title].
  now rewrite String.eqb_refl.
Qed.

Lemma looked_up_distinct (d : StaffDb.t) (t1 t2 : string) (i1 i2 : Z)
    (d1 d2 : StaffDb.t) :
  StaffDb.primary_key_ok d -> t1 <> t2 ->
  looked_up d t1 i1 d1 -> looked_up d1 t2 i2 d2 -> i1 <> i2.
Proof.
  unfold StaffDb.primary_key_ok. intros Hpk Hne L1 L2 Heq. subst i2.
  destruct L1 as [p1 Hin1 Ht1 Hi1 -> | Hno1 Hi1 ->].
  - destruct L2 as [p2 Hin2 Ht2 Hi2 _ | Hno2 Hi2 _].
    + apply Hne. rewrite <- Ht1, <- Ht2. f_equal.
      apply (NoDup_key_inj posts.post_id (StaffDb.posts_table d)); auto.
      congruence.
    + apply (next_rowid_fresh (map posts.post_id (StaffDb.posts_table d))).
      rewrite <- Hi2, <- Hi1. now apply in_map.
  - destruct L2 as [p2 Hin2 Ht2 Hi2 _ | Hno2 Hi2 _]; simpl in *.
    + apply in_app_or in Hin2. destruct Hin2 as [Hin2 | [<- | []]].
      * apply (next_rowid_fresh (map posts.post_id (StaffDb.posts_table d))).
        rewrite <- Hi1, <- Hi2. now apply in_map.
      * now apply Hne.
    + apply (next_rowid_fresh
               (map posts.post_id (StaffDb.posts_table d ++ [posts.mk i1 t1])%list)).
      rewrite <- Hi2, map_app. apply in_or_app. right. now left.
Qed.

End GetOrCreatePost.

(** C2, as stated, fails.  Once the largest key there is, 2^63 - 1, is
    stored in the posts table, a call with a title that is not stored
    returns no id: the insert raises [OperationalError] and nothing is
    stored. *)
Lemma get_or_create_post_keys_exhausted :
  Example1.get_or_create_post "Clerk" last_key_taken
  = (Raised (OperationalError "database or disk is full"), last_key_taken)
  /\ Example1.get_or_create_post "Engineer" last_key_taken
     = (Returned 9223372036854775807, last_key_taken).
Proof. split; reflexivity. Qed.

(** C2, amended.  A call of [get_or_create_post] returns whenever the
    title is stored or a post key is left, that is, the largest stored
    post id is below 2^63 - 1; otherwise it raises [OperationalError] and
    stores nothing.  Whenever a call returns, the next call with the same
    title returns the same id and stores nothing.  When [post_id] is the
    key of the posts table, as the schema declares, two successive calls
    with two different titles that both return give two different ids;
    and both do return when a key is left before each. *)
Theorem get_or_create_post_ids :
  (forall (d : StaffDb.t) (t : string) (i : Z) (d1 : StaffDb.t),
      Example1.get_or_create_post t d = (Returned i, d1) ->
      Example1.get_or_create_post t d1 = (Returned i, d1))
  /\ (forall (d : StaffDb.t) (t : string),
        StaffDb.post_keys_left d = true ->
        exists i d1,
          Example1.get_or_create_post t d = (Returned i, d1)
          /\ Example1.get_or_create_post t d1 = (Returned i, d1))
  /\ (forall (d : StaffDb.t) (t : string),
        In t (map posts.post_title (StaffDb.posts_table d)) ->
        exists i, Example1.get_or_create_post t d = (Returned i, d))
  /\ (forall (d : StaffDb.t) (t : string),
        ~ In t (map posts.post_title (StaffDb.posts_table d)) ->
        StaffDb.post_keys_left d = false ->
        Example1.get_or_create_post t d = (Raised Sqlite.full, d))
  /\ (forall (d : StaffDb.t) (t1 t2 : string) (i1 i2 : Z) (d1 d2 : StaffDb.t),
        StaffDb.primary_key_ok d -> t1 <> t2 ->
        Example1.get_or_create_post t1 d = (Returned i1, d1) ->
        Example1.get_or_create_post t2 d1 = (Returned i2, d2) ->
        i1 <> i2)
  /\ (forall (d : StaffDb.t) (t1 t2 : string),
        StaffDb.primary_key_ok d -> t1 <> t2 ->
        StaffDb.post_keys_left d = true ->
        StaffDb.post_keys_left
          (stored_after (Example1.get_or_create_post t1 d)) = true ->
        exists i1 d1 i2 d2,
          Example1.get_or_create_post t1 d = (Returned i1, d1)
          /\ Example1.get_or_create_post t2 d1 = (Returned i2, d2)
          /\ i1 <> i2).
Proof.
  assert (Distinct : forall (d : StaffDb.t) (t1 t2 : string) (i1 i2 : Z)
                            (d1 d2 : StaffDb.t),
    StaffDb.primary_key_ok d -> t1 <> t2 ->
    Example1.get_or_create_post t1 d = (Returned i1, d1) ->
    Example1.get_or_create_post t2 d1 = (Returned i2, d2) ->
    i1 <> i2).
  { intros d t1 t2 i1 i2 d1 d2 Hpk Hne H1 H2.
    apply (looked_up_distinct d t1 t2 i1 i2 d1 d2 Hpk Hne).
    - now apply get_or_create_post_looked_up.
    - now apply get_or_create_post_looked_up. }
  split; [exact get_or_create_post_again |].
  split; [| split; [exact get_or_create_post_finds | split; [| split]]].
  - intros d t K.
    destruct (get_or_create_post_returns d t K) as [i [d1 [H _]]].
    exists i, d1. split; [exact H | now apply (get_or_create_post_again d)].
  - exact get_or_create_post_full.
  - exact Distinct.
  - intros d t1 t2 Hpk Hne K K1.
    destruct (get_or_create_post_returns d t1 K) as [i1 [d1 [H1 _]]].
    rewrite H1 in K1. cbn [stored_after snd] in K1.
    destruct (get_or_create_post_returns d1 t2 K1) as [i2 [d2 [H2 _]]].
    exists i1, d1, i2, d2. split; [exact H1 | split; [exact H2 |]].
    now apply (Distinct d t1 t2 i1 i2 d1 d2).
Qed.

Lemma staff_empty_key_ok : StaffDb.primary_key_ok StaffDb.empty.
Proof. constructor. Qed.

Lemma get_or_create_post_ids_witness :
  (exists i1 d1 i2 d2,
      Example1.get_or_create_post "Engineer" StaffDb.empty = (Returned i1, d1)
      /\ Example1.get_or_create_post "Clerk" d1 = (Returned i2, d2)
      /\ i1 <> i2)
  /\ Example1.get_or_create_post "Clerk" last_key_taken
     = (Raised Sqlite.full, last_key_taken).
Proof.
  destruct get_or_create_post_ids as [_ [_ [_ [Full [_ Two]]]]].
  split.
  - apply (Two StaffDb.empty "Engineer" "Clerk").
    + exact staff_empty_key_ok.
    + discriminate.
    + reflexivity.
    + reflexivity.
  - apply (Full last_key_taken "Clerk"); [| reflexivity].
    simpl. intros [H | []]. discriminate H.
Defined.

Example get_or_create_post_sample :
  result_of (Example1.get_or_create_post "Clerk" engineers) = Returned 2
  /\ result_of (Example1.get_or_create_post "Driver" engineers) = Returned 3.
Proof. split; reflexivity. Qed.

(** ** Workers always refer to a stored post *)

Lemma looked_up_keeps_references (d : StaffDb.t) (t : string) (i : Z) (d1 : StaffDb.t) :
  looked_up d t i d1 -> StaffDb.foreign_key_ok d -> StaffDb.foreign_key_ok d1.
Proof.
  intros [p Hin Ht Hi -> | Hno Hi ->] Hfk; [exact Hfk |].
  intros w Hw. simpl in Hw. specialize (Hfk w Hw).
  unfold StaffDb.post_exists in *. simpl.
  rewrite existsb_app, Hfk. reflexivity.
Qed.

Lemma looked_up_keeps_keys (d : StaffDb.t) (t : string) (i : Z) (d1 : StaffDb.t) :
  looked_up d t i d1 -> StaffDb.primary_key_ok d -> StaffDb.primary_key_ok d1.
Proof.
  unfold StaffDb.primary_key_ok.
  intros [p Hin Ht Hi -> | Hno Hi ->] Hpk; [exact Hpk |].
  simpl. rewrite map_app. simpl.
  apply NoDup_app_remove_l with (l := []). simpl.
  apply Permutation_NoDup with (l := i :: map posts.post_id (StaffDb.posts_table d)).
  - apply Permutation_cons_append.
  - constructor; [| exact Hpk]. rewrite Hi. apply next_rowid_fresh.
Qed.

Lemma looked_up_post_exists (d : StaffDb.t) (t : string) (i : Z) (d1 : StaffDb.t) :
  looked_up d t i d1 -> StaffDb.post_exists d1 i = true.
Proof.
  intros L. destruct (looked_up_exists d t i d1 L) as [p [Hin [<- _]]].
  now apply post_exists_in.
Qed.

Lemma looked_up_workers (d : StaffDb.t) (t : string) (i : Z) (d1 : StaffDb.t) :
  looked_up d t i d1 -> StaffDb.workers_table d1 = StaffDb.workers_table d.
Proof. intros [p _ _ _ -> | _ _ ->]; reflexivity. Qed.

(** The three ways the insert of a worker whose post is stored can go. *)
Lemma insert_worker_cases (d : StaffDb.t) (fk : bool) (name : string) (pid year : Z) :
  StaffDb.post_exists d pid = true ->
  (Sqlite.fits pid && Sqlite.fits year = false
   /\ StaffDb.insert_worker fk name pid year d = (Raised Sqlite.too_large, d))
  \/ (Sqlite.fits pid && Sqlite.fits year = true
      /\ StaffDb.worker_keys_left d = false
      /\ StaffDb.insert_worker fk name pid year d = (Raised Sqlite.full, d))
  \/ (Sqlite.fits pid && Sqlite.fits year = true
      /\ StaffDb.worker_keys_left d = true
      /\ StaffDb.insert_worker fk name pid year d
         = (Returned (Sqlite.next_rowid (map workers.worker_id (StaffDb.workers_table d))),
            StaffDb.mk (StaffDb.posts_table d)
              (StaffDb.workers_table d
               ++ [workers.mk
                     (Sqlite.next_rowid (map workers.worker_id (StaffDb.workers_table d)))
                     name pid year])%list)).
Proof.
  intros Hex.
  unfold StaffDb.insert_worker, Sqlite.binding, StaffDb.worker_keys_left,
    Sqlite.new_rowid, raise.
  cbn [forallb]. rewrite andb_true_r.
  destruct (Sqlite.fits pid && Sqlite.fits year); [| now left].
  right.
  destruct (Sqlite.keys_left (map workers.worker_id (StaffDb.workers_table d)));
    [| now left].
  right. rewrite Hex, andb_false_r. auto.
Qed.

(** The ways [add_worker] can go: no key for a new post; or the post is
    there, and the insert of the worker goes one of its three ways. *)
Lemma add_worker_spec (fk : bool) (d : StaffDb.t) (name post : string) (year : Z) :
  (Example1.get_or_create_post post d = (Raised Sqlite.full, d)
   /\ Example1.add_worker fk name post year d = (Raised Sqlite.full, d))
  \/ exists pid d1,
       Example1.get_or_create_post post d = (Returned pid, d1)
       /\ looked_up d post pid d1
       /\ ((Sqlite.fits pid && Sqlite.fits year = false
            /\ Example1.add_worker fk name post year d = (Raised Sqlite.too_large, d1))
           \/ (Sqlite.fits pid && Sqlite.fits year = true
               /\ StaffDb.worker_keys_left d1 = false
               /\ Example1.add_worker fk name post year d = (Raised Sqlite.full, d1))
           \/ (Sqlite.fits pid && Sqlite.fits year = true
               /\ StaffDb.worker_keys_left d1 = true
               /\ Example1.add_worker fk name post year d
                  = (Returned tt,
                     StaffDb.mk (StaffDb.posts_table d1)
                       (StaffDb.workers_table d1
                        ++ [workers.mk
                              (Sqlite.next_rowid
                                 (map workers.worker_id (StaffDb.workers_table d1)))
                              name pid year])%list))).
Proof.
  unfold Example1.add_worker, bind.
  destruct (get_or_create_post_spec d post) as [[pid [d1 [H L]]] | [_ [_ H]]].
  - right. exists pid, d1. split; [exact H | split; [exact L |]]. rewrite H.
    destruct (insert_worker_cases d1 fk name pid year
                (looked_up_post_exists d post pid d1 L))
      as [[C E] | [[C [K E]] | [C [K E]]]]; rewrite E; auto.
  - left. rewrite H. auto.
Qed.

(** A post id that [get_or_create_post] returns can be bound. *)
Lemma looked_up_fits (d : StaffDb.t) (t : string) (i : Z) (d1 : StaffDb.t) :
  looked_up d t i d1 ->
  StaffDb.post_ids_fit d = true -> StaffDb.post_keys_left d = true ->
  Sqlite.fits i = true.
Proof.
  intros [p Hin Ht Hi _ | Hno Hi _] Hfit K.
  - unfold StaffDb.post_ids_fit in Hfit. rewrite forallb_forall in Hfit.
    rewrite <- Hi. now apply Hfit.
  - rewrite Hi. now apply next_rowid_fits.
Qed.

Lemma add_worker_returns (fk : bool) (d : StaffDb.t) (name post : string) (year : Z) :
  Sqlite.fits year = true -> StaffDb.post_ids_fit d = true ->
  StaffDb.post_keys_left d = true -> StaffDb.worker_keys_left d = true ->
  exists pid d1 wid,
    Example1.get_or_create_post post d = (Returned pid, d1)
    /\ looked_up d post pid d1
    /\ Example1.add_worker fk name post year d
       = (Returned tt,
          StaffDb.mk (StaffDb.posts_table d1)
            (StaffDb.workers_table d1 ++ [workers.mk wid name pid year])%list).
Proof.
  intros Hy Hfit Kp Kw.
  destruct (add_worker_spec fk d name post year)
    as [[H _] | [pid [d1 [H [L Cases]]]]].
  - destruct (get_or_create_post_returns d post Kp) as [i [d1 [H' _]]].
    rewrite H in H'. discriminate H'.
  - pose proof (looked_up_fits d post pid d1 L Hfit Kp) as Hpid.
    assert (Kw1 : StaffDb.worker_keys_left d1 = true).
    { unfold StaffDb.worker_keys_left in *.
      now rewrite (looked_up_workers d post pid d1 L). }
    destruct Cases as [[C _] | [[_ [K _]] | [_ [_ A]]]].
    + rewrite Hpid, Hy in C. discriminate C.
    + congruence.
    + eexists pid, d1, _. split; [exact H | split; [exact L | exact A]].
Qed.

(** What [add_worker] leaves stored: the database as it was, the one the
    lookup left, or that one with one worker more, who refers to the post
    looked up. *)
Lemma add_worker_stored (fk : bool) (d : StaffDb.t) (name post : string) (year : Z) :
  stored_after (Example1.add_worker fk name post year d) = d
  \/ exists pid d1,
       looked_up d post pid d1
       /\ (stored_after (Example1.add_worker fk name post year d) = d1
           \/ exists wid,
                stored_after (Example1.add_worker fk name post year d)
                = StaffDb.mk (StaffDb.posts_table d1)
                    (StaffDb.workers_table d1 ++ [workers.mk wid name pid year])%list).
Proof.
  destruct (add_worker_spec fk d name post year)
    as [[_ A] | [pid [d1 [_ [L [[_ A] | [[_ [_ A]] | [_ [_ A]]]]]]]]];
    rewrite A; [now left | right; exists pid, d1; split; [exact L |] ..].
  - now left.
  - now left.
  - right. eexists. reflexivity.
Qed.

Lemma add_worker_keeps_references
    (fk : bool) (d : StaffDb.t) (name post : string) (year : Z) :
  StaffDb.foreign_key_ok d ->
  StaffDb.foreign_key_ok (stored_after (Example1.add_worker fk name post year d)).
Proof.
  intros Hfk.
  destruct (add_worker_stored fk d name post year)
    as [-> | [pid [d1 [L [-> | [wid ->]]]]]]; [exact Hfk | |].
  - now apply (looked_up_keeps_references d post pid d1).
  - pose proof (looked_up_keeps_references d post pid d1 L Hfk) as Hfk1.
    intros w Hw. simpl in Hw. unfold StaffDb.post_exists. simpl.
    apply in_app_or in Hw. destruct Hw as [Hw | [<- | []]].
    + apply (Hfk1 w Hw).
    + simpl. apply (looked_up_post_exists d post pid d1 L).
Qed.

Lemma add_worker_keeps_keys
    (fk : bool) (d : StaffDb.t) (name post : string) (year : Z) :
  StaffDb.primary_key_ok d ->
  StaffDb.primary_key_ok (stored_after (Example1.add_worker fk name post year d)).
Proof.
  intros Hpk.
  destruct (add_worker_stored fk d name post year)
    as [-> | [pid [d1 [L [-> | [wid ->]]]]]]; [exact Hpk | |].
  - now apply (looked_up_keeps_keys d post pid d1).
  - apply (looked_up_keeps_keys d post pid d1 L Hpk).
Qed.

Lemma get_or_create_post_keeps_references (d : StaffDb.t) (title : string) :
  StaffDb.foreign_key_ok d ->
  StaffDb.foreign_key_ok (stored_after (Example1.get_or_create_post title d)).
Proof.
  intros Hfk. destruct (get_or_create_post_stored d title) as [-> | [i L]];
    [exact Hfk | now apply (looked_up_keeps_references d title i)].
Qed.

Lemma get_or_create_post_keeps_keys (d : StaffDb.t) (title : string) :
  StaffDb.primary_key_ok d ->
  StaffDb.primary_key_ok (stored_after (Example1.get_or_create_post title d)).
Proof.
  intros Hpk. destruct (get_or_create_post_stored d title) as [-> | [i L]];
    [exact Hpk | now apply (looked_up_keeps_keys d title i)].
Qed.

Lemma select_by_period_stores_nothing (d : StaffDb.t) (year_now period : Z) :
  stored_after (Example1.select_by_period year_now period d) = d.
Proof.
  unfold Example1.select_by_period, bind, StaffDb.select_workers_by_period,
    Sqlite.binding.
  now destruct (forallb Sqlite.fits [period]).
Qed.

(** C10, as stated, fails.  For the year 2^63, [add_worker] inserts no
    worker row: binding the year raises [OverflowError], after the post
    has been created and committed. *)
Lemma add_worker_year_too_large :
  Example1.add_worker false "Bob" "Clerk" 9223372036854775808 StaffDb.empty
  = (Raised (OverflowError "Python int too large to convert to SQLite INTEGER"),
     StaffDb.mk [posts.mk 1 "Clerk"] [])
  /\ Example1.main false 2026 (Example1.cmd_add "Bob" "Clerk" 9223372036854775808)
       StaffDb.empty
     = Example1.mk_run []
         (Some (OverflowError "Python int too large to convert to SQLite INTEGER"))
         (StaffDb.mk [posts.mk 1 "Clerk"] []).
Proof. split; reflexivity. Qed.

(** C10, amended.  For every name, post title and year, and whether or
    not the engine enforces foreign keys, [add_worker] never fails on
    referential integrity: the failure branch of the foreign key is
    unreachable.  When the year is a signed 64-bit integer, so are the
    stored post ids, and a key is left for a post and for a worker,
    [add_worker] returns: the row it appends carries the id
    [get_or_create_post] returned, and a post with that id is stored at
    that moment.  When the year is not a signed 64-bit integer,
    [add_worker] raises and stores no worker, though it may have stored
    the post.  Every operation of the repository keeps the invariant that
    each worker refers to a stored post: the two that write preserve it,
    whether they return or raise, the two that read store nothing. *)
Theorem add_worker_references_post :
  (forall (fk : bool) (d : StaffDb.t) (name post : string) (year : Z) (msg : string),
      result_of (Example1.add_worker fk name post year d)
      <> Raised (IntegrityError msg))
  /\ (forall (fk : bool) (d : StaffDb.t) (name post : string) (year : Z),
        Sqlite.fits year = true -> StaffDb.post_ids_fit d = true ->
        StaffDb.post_keys_left d = true -> StaffDb.worker_keys_left d = true ->
        exists pid d1 wid,
          Example1.get_or_create_post post d = (Returned pid, d1)
          /\ StaffDb.post_exists d1 pid = true
          /\ Example1.add_worker fk name post year d
             = (Returned tt,
                StaffDb.mk (StaffDb.posts_table d1)
                  (StaffDb.workers_table d1 ++ [workers.mk wid name pid year])%list))
  /\ (forall (fk : bool) (d : StaffDb.t) (name post : string) (year : Z),
        Sqlite.fits year = false ->
        (exists e, result_of (Example1.add_worker fk name post year d) = Raised e)
        /\ StaffDb.workers_table
             (stored_after (Example1.add_worker fk name post year d))
           = StaffDb.workers_table d
        /\ stored_after (Example1.add_worker fk name post year d)
           = stored_after (Example1.get_or_create_post post d))
  /\ (forall d : StaffDb.t,
        StaffDb.foreign_key_ok d ->
        (forall fk name post year,
            StaffDb.foreign_key_ok
              (stored_after (Example1.add_worker fk name post year d)))
        /\ (forall title,
               StaffDb.foreign_key_ok
                 (stored_after (Example1.get_or_create_post title d)))
        /\ stored_after (Example1.get_all_workers d) = d
        /\ (forall year_now period,
               stored_after (Example1.select_by_period year_now period d) = d)).
Proof.
  split; [| split; [| split]].
  - intros fk d name post year msg.
    destruct (add_worker_spec fk d name post year)
      as [[_ A] | [pid [d1 [_ [_ [[_ A] | [[_ [_ A]] | [_ [_ A]]]]]]]]];
      rewrite A; discriminate.
  - intros fk d name post year Hy Hfit Kp Kw.
    destruct (add_worker_returns fk d name post year Hy Hfit Kp Kw)
      as [pid [d1 [wid [H [L A]]]]].
    exists pid, d1, wid. split; [exact H | split; [| exact A]].
    now apply (looked_up_post_exists d post).
  - intros fk d name post year Hy.
    destruct (add_worker_spec fk d name post year)
      as [[H A] | [pid [d1 [H [L [[_ A] | [[C _] | [C _]]]]]]]].
    + rewrite A, H. split; [now eexists | split; reflexivity].
    + rewrite A, H. split; [now eexists |]. split; [| reflexivity].
      apply (looked_up_workers d post pid d1 L).
    + rewrite Hy, andb_false_r in C. discriminate C.
    + rewrite Hy, andb_false_r in C. discriminate C.
  - intros d Hfk. split; [| split; [| split]].
    + intros fk name post year. now apply add_worker_keeps_references.
    + intros title. now apply get_or_create_post_keeps_references.
    + reflexivity.
    + intros year_now period. apply select_by_period_stores_nothing.
Qed.

Lemma engineers_references_ok : StaffDb.foreign_key_ok engineers.
Proof.
  intros w [<- | [<- | []]]; reflexivity.
Qed.

Lemma add_worker_references_post_witness :
  StaffDb.foreign_key_ok
    (stored_after (Example1.add_worker true "Carol" "Driver" 2020 engineers))
  /\ stored_after (Example1.get_all_workers engineers) = engineers
  /\ (exists pid d1 wid,
        Example1.get_or_create_post "Driver" engineers = (Returned pid, d1)
        /\ StaffDb.post_exists d1 pid = true
        /\ Example1.add_worker true "Carol" "Driver" 2020 engineers
           = (Returned tt,
              StaffDb.mk (StaffDb.posts_table d1)
                (StaffDb.workers_table d1
                 ++ [workers.mk wid "Carol" pid 2020])%list))
  /\ StaffDb.workers_table
       (stored_after
          (Example1.add_worker true "Carol" "Driver" 9223372036854775808 engineers))
     = StaffDb.workers_table engineers.
Proof.
  destruct add_worker_references_post as [_ [Returns [Too_large Keeps]]].
  pose proof (Keeps engineers engineers_references_ok) as H.
  split; [| split; [| split]].
  - exact (proj1 H true "Carol" "Driver" 2020).
  - exact (proj1 (proj2 (proj2 H))).
  - exact (Returns true engineers "Carol" "Driver" 2020
             eq_refl eq_refl eq_refl eq_refl).
  - exact (proj1 (proj2 (Too_large true engineers "Carol" "Driver"
                           9223372036854775808 eq_refl))).
Defined.

Example add_worker_sample :
  Example1.add_worker true "Carol" "Driver" 2020 engineers
  = (Returned tt,
     StaffDb.mk [posts.mk 1 "Engineer"; posts.mk 2 "Clerk"; posts.mk 3 "Driver"]
                [workers.mk 1 "Alice" 1 2015; workers.mk 2 "Bob" 2 2024;
                 workers.mk 3 "Carol" 3 2020]).
Proof. reflexivity. Qed.

(** ** Listing workers with their posts *)

Lemma filter_unique_key {A : Type} (key : A -> Z) (l : list A) (x : A) :
  NoDup (map key l) -> In x l ->
  filter (fun y => (key y =? key x)%Z) l = [x].
Proof.
  induction l as [|a l IH]; simpl; intros Hnd Hin; [destruct Hin |].
  inversion Hnd as [|? ? Hnotin Hnd']; subst.
  destruct Hin as [-> | Hin].
  - rewrite Z.eqb_refl. f_equal.
    apply filter_none. apply not_true_is_false. intros H.
    apply existsb_exists in H. destruct H as [y [Hy Hk]].
    apply Z.eqb_eq in Hk. apply Hnotin. rewrite <- Hk. now apply in_map.
  - destruct (key a =? key x)%Z eqn:E.
    + apply Z.eqb_eq in E. exfalso. apply Hnotin. rewrite E. now apply in_map.
    + now apply IH.
Qed.

Lemma join_posts_one (d : StaffDb.t) (w : workers.row) :
  StaffDb.primary_key_ok d ->
  StaffDb.post_exists d (workers.post_id w) = true ->
  exists p,
    In p (StaffDb.posts_table d)
    /\ posts.post_id p = workers.post_id w
    /\ StaffDb.join_posts d w
       = [(workers.worker_name w, posts.post_title p, workers.worker_year w)].
Proof.
  intros Hpk Hex. unfold StaffDb.post_exists in Hex.
  apply existsb_exists in Hex. destruct Hex as [p [Hin Hid]].
  apply Z.eqb_eq in Hid. exists p. split; [exact Hin | split; [exact Hid |]].
  unfold StaffDb.join_posts. rewrite <- Hid.
  now rewrite (filter_unique_key posts.post_id _ p Hpk Hin).
Qed.



(** Every database the program builds satisfies the constraints of its
    schema. *)
Lemma staff_reachable_constraints (d : StaffDb.t) :
  staff_reachable d -> StaffDb.primary_key_ok d /\ StaffDb.foreign_key_ok d.
Proof.
  induction 1 as [| d title _ [Hpk Hfk] | d fk name post year _ [Hpk Hfk]].
  - split; [constructor | intros w []].
  - split.
    + now apply get_or_create_post_keeps_keys.
    + now apply get_or_create_post_keeps_references.
  - split.
    + now apply add_worker_keeps_keys.
    + now apply add_worker_keeps_references.
Qed.

Lemma select_by_period_fits (d : StaffDb.t) (year_now period : Z) :
  Sqlite.fits period = true ->
  Example1.select_by_period year_now period d
  = (Returned
       (map Example1.worker_of_row
          (filter (fun r : StaffDb.joined => (year_now - snd r >=? period)%Z)
                  (flat_map (StaffDb.join_posts d) (StaffDb.workers_table d)))),
     d).
Proof.
  intros H. unfold Example1.select_by_period, bind, StaffDb.select_workers_by_period.
  now rewrite (binding_one period _ H).
Qed.

Lemma select_by_period_too_large (d : StaffDb.t) (year_now period : Z) :
  Sqlite.fits period = false ->
  Example1.select_by_period year_now period d = (Raised Sqlite.too_large, d).
Proof.
  intros H. unfold Example1.select_by_period, bind, StaffDb.select_workers_by_period.
  now rewrite (binding_one_too_large period _ H).
Qed.



Lemma engineers_keys_ok : StaffDb.primary_key_ok engineers.
Proof.
  unfold StaffDb.primary_key_ok. simpl.
  repeat constructor; simpl; intuition discriminate.
Qed.


Example select_by_period_sample :
  result_of (Example1.select_by_period 2026 8 engineers)
    = Returned [Example1.Worker.mk "Alice" "Engineer" 2015]
  /\ result_of (Example1.select_by_period 2026 2 engineers)
    = Returned [Example1.Worker.mk "Alice" "Engineer" 2015;
                Example1.Worker.mk "Bob" "Clerk" 2024]
  /\ result_of (Example1.select_by_period 2026 12 engineers) = Returned [].
Proof. repeat split; reflexivity. Qed.

(** ** Listing all children *)




Example list_all_sample :
  result_of (Zad1.get_all_pets ann_and_rex)
    = Returned [Zad1.Pet.mk 2 "Bim" "dog" "setter" 5 1;
                Zad1.Pet.mk 1 "Rex" "dog" "collie" 3 1]
  /\ result_of (Example1.get_all_workers engineers)
    = Returned [Example1.Worker.mk "Alice" "Engineer" 2015;
                Example1.Worker.mk "Bob" "Clerk" 2024].
Proof. split; reflexivity. Qed.

(** ** Formatting an empty list *)

Ltac absent := apply not_contains; vm_compute; reflexivity.

(** C7. Given the empty list, each formatter calls [print] once, with its
    "empty" message: standard output receives that line and nothing
    else.  No border character and no header label of the corresponding
    table occurs in it. *)
Theorem empty_list_message_only :
  Zad1.display_owners [] = ["Список владельцев пуст."]
  /\ stdout_of (Zad1.display_owners []) = "Список владельцев пуст." ++ newline
  /\ Forall (fun s => ~ Substring s (stdout_of (Zad1.display_owners [])))
            (border_characters ++ owner_headers)%list
  /\ (forall show_owner,
        Zad1.display_pets [] show_owner = ["Список животных пуст."]
        /\ stdout_of (Zad1.display_pets [] show_owner)
           = "Список животных пуст." ++ newline
        /\ Forall (fun s => ~ Substring s (stdout_of (Zad1.display_pets [] show_owner)))
                  (border_characters ++ pet_headers true)%list)
  /\ Example1.display_workers [] = ["Список работников пуст."]
  /\ stdout_of (Example1.display_workers []) = "Список работников пуст." ++ newline
  /\ Forall (fun s => ~ Substring s (stdout_of (Example1.display_workers [])))
            (border_characters ++ worker_headers)%list.
Proof.
  repeat apply conj; try reflexivity.
  - repeat constructor; absent.
  - repeat constructor; absent.
  - repeat constructor; absent.
Qed.

(** ** Row numbers in the table of workers *)

Lemma nth_error_enumerate {A : Type} (l : list A) (start : Z) (k : nat) :
  nth_error (Example1.enumerate start l) k
  = option_map (fun x => (start + Z.of_nat k, x)) (nth_error l k).
Proof.
  revert start k. induction l as [|x l IH]; intros start [|k];
    cbn [Example1.enumerate nth_error option_map]; try reflexivity.
  - now rewrite Z.add_0_r.
  - rewrite IH. destruct (nth_error l k); cbn [option_map]; [| reflexivity].
    do 2 f_equal. lia.
Qed.

Lemma length_enumerate {A : Type} (l : list A) (start : Z) :
  List.length (Example1.enumerate start l) = List.length l.
Proof.
  revert start. induction l as [|x l IH]; intros start; simpl;
    [reflexivity | now rewrite IH].
Qed.

(** C9. In the table of a non-empty list of workers, the line printed for
    the record at (0-based) index [k], the [k+1]-th record, is line
    [3 + k] of the output, after the border, the header and the second
    border; its first cell is the number [k + 1], centred in six
    columns, whatever the record holds.  The table has one such line per
    record, between the header block and the closing border. *)
Theorem display_workers_numbers_rows
    (workers : list Example1.Worker.t) (k : nat) (w : Example1.Worker.t) :
  nth_error workers k = Some w ->
  nth_error (Example1.display_workers workers) (3 + k)
  = Some ("| " ++ center 6 (str_int (Z.of_nat k + 1)) ++ " | "
               ++ center 30 (Example1.Worker.name w) ++ " | "
               ++ center 20 (Example1.Worker.post w) ++ " | "
               ++ center 8 (str_int (Example1.Worker.year w)) ++ " |")
  /\ List.length (Example1.display_workers workers) = (List.length workers + 4)%nat.
Proof.
  intros Hk.
  destruct workers as [|w0 ws]; [destruct k; discriminate |].
  unfold Example1.display_workers.
  set (ws' := w0 :: ws) in *. split.
  - cbn [app Nat.add nth_error].
    assert (Hlt : (k < List.length ws')%nat)
      by (apply nth_error_Some; congruence).
    rewrite nth_error_app1
      by now rewrite length_map, length_enumerate.
    rewrite nth_error_map, nth_error_enumerate, Hk.
    cbn [option_map fst snd]. unfold Example1.worker_cells.
    now replace (1 + Z.of_nat k) with (Z.of_nat k + 1) by lia.
  - cbn [app List.length].
    rewrite length_app, length_map, length_enumerate. simpl. lia.
Qed.

Lemma display_workers_numbers_rows_witness :
  nth_error
    (Example1.display_workers
       [Example1.Worker.mk "Alice" "Engineer" 2015; Example1.Worker.mk "Bob" "Clerk" 2024])
    (3 + 1)
  = Some ("| " ++ center 6 (str_int (Z.of_nat 1 + 1)) ++ " | "
               ++ center 30 "Bob" ++ " | " ++ center 20 "Clerk" ++ " | "
               ++ center 8 (str_int 2024) ++ " |").
Proof.
  exact (proj1 (display_workers_numbers_rows
                  [Example1.Worker.mk "Alice" "Engineer" 2015;
                   Example1.Worker.mk "Bob" "Clerk" 2024]
                  1 (Example1.Worker.mk "Bob" "Clerk" 2024) eq_refl)).
Defined.

(** ** Formatting a non-empty list *)

Ltac in_cells :=
  first [ solve [apply Substring_center]
        | solve [apply Substring_left; apply Substring_center]
        | apply Substring_right; in_cells ].

Ltac present := apply contains_spec; vm_compute; reflexivity.

Lemma Substring_table (l : string) (head rows : list string) (last : string) :
  In l (head ++ rows)%list -> Substring l (stdout_of (head ++ rows ++ [last])%list).
Proof.
  intros H. apply Substring_stdout. rewrite app_assoc.
  apply in_or_app. now left.
Qed.

Lemma Substring_in_row (v row : string) (head rows : list string) (last : string) :
  Substring v row -> In row (head ++ rows)%list ->
  Substring v (stdout_of (head ++ rows ++ [last])%list).
Proof.
  intros Hv Hrow. apply (Substring_trans v row); [exact Hv |].
  now apply Substring_table.
Qed.

Ltac in_header :=
  eapply Substring_in_row; [| right; left; reflexivity]; present.

Lemma display_owners_table (owners : list Zad1.Owner.t) :
  owners <> [] ->
  exists line,
    Zad1.display_owners owners
    = ([line; Zad1.owner_cells "ID" "Имя владельца" "Телефон"; line]
       ++ map (fun owner =>
                 Zad1.owner_cells (str_int (Zad1.Owner.id owner))
                   (Zad1.Owner.name owner) (Zad1.Owner.phone owner)) owners
       ++ [line])%list.
Proof.
  destruct owners; [contradiction | intros _; eexists; reflexivity].
Qed.

Lemma display_pets_table_with_owner (pets : list Zad1.Pet.t) :
  pets <> [] ->
  exists line,
    Zad1.display_pets pets true
    = ([line;
        Zad1.pet_cells6 "ID" "Кличка" "Вид" "Порода" "Возраст" "ID владельца";
        line]
       ++ map (fun pet =>
                 Zad1.pet_cells6 (str_int (Zad1.Pet.id pet)) (Zad1.Pet.name pet)
                   (Zad1.Pet.species pet) (Zad1.Pet.breed pet)
                   (str_int (Zad1.Pet.age pet)) (str_int (Zad1.Pet.owner_id pet)))
              pets
       ++ [line])%list.
Proof.
  destruct pets; [contradiction | intros _; eexists; reflexivity].
Qed.

Lemma display_pets_table (pets : list Zad1.Pet.t) :
  pets <> [] ->
  exists line,
    Zad1.display_pets pets false
    = ([line; Zad1.pet_cells5 "ID" "Кличка" "Вид" "Порода" "Возраст"; line]
       ++ map (fun pet =>
                 Zad1.pet_cells5 (str_int (Zad1.Pet.id pet)) (Zad1.Pet.name pet)
                   (Zad1.Pet.species pet) (Zad1.Pet.breed pet)
                   (str_int (Zad1.Pet.age pet)))
              pets
       ++ [line])%list.
Proof.
  destruct pets; [contradiction | intros _; eexists; reflexivity].
Qed.

Lemma display_workers_table (workers : list Example1.Worker.t) :
  workers <> [] ->
  exists line,
    Example1.display_workers workers
    = ([line; Example1.worker_cells "№" "Ф.И.О." "Должность" "Год"; line]
       ++ map (fun iw =>
                 Example1.worker_cells (str_int (fst iw))
                   (Example1.Worker.name (snd iw)) (Example1.Worker.post (snd iw))
                   (str_int (Example1.Worker.year (snd iw))))
              (Example1.enumerate 1 workers)
       ++ [line])%list.
Proof.
  destruct workers; [contradiction | intros _; eexists; reflexivity].
Qed.

Lemma in_enumerate {A : Type} (l : list A) (x : A) (start : Z) :
  In x l -> exists i, In (i, x) (Example1.enumerate start l).
Proof.
  revert start. induction l as [|a l IH]; intros start H; [destruct H |].
  destruct H as [-> | H].
  - exists start. now left.
  - destruct (IH (start + 1) H) as [i Hi]. exists i. now right.
Qed.

Ltac in_record H :=
  eapply Substring_in_row;
  [| apply in_or_app; right; apply in_map; exact H]; cbv beta;
  first [ unfold Zad1.owner_cells | unfold Zad1.pet_cells5
        | unfold Zad1.pet_cells6 | unfold Example1.worker_cells ];
  in_cells.

(** C8, as stated, fails for the pets.  Printed without the owner column,
    which is how [display_pets] prints by default, the table of a pet
    with owner 777 shows neither the string form of that field nor the
    label of its column. *)
Lemma display_pets_hides_owner_id :
  ~ Substring (str_int 777)
      (stdout_of (Zad1.display_pets [Zad1.Pet.mk 1 "Rex" "dog" "collie" 3 777] false))
  /\ ~ Substring "ID владельца"
      (stdout_of (Zad1.display_pets [Zad1.Pet.mk 1 "Rex" "dog" "collie" 3 777] false)).
Proof. split; absent. Qed.

(** C8, amended.  For every non-empty list, the output of a formatter
    contains every header label of the table it draws and, for every
    record, the string form of every field the table has a column for:
    all three fields of an owner, all three of a worker, and of a pet
    the id, name, species, breed and age, together with the owner id
    when, and only when, the owner column is asked for. *)
Theorem display_shows_columns :
  (forall owners : list Zad1.Owner.t,
      owners <> [] ->
      Forall (fun h => Substring h (stdout_of (Zad1.display_owners owners)))
             owner_headers
      /\ forall o, In o owners ->
           Forall (fun v => Substring v (stdout_of (Zad1.display_owners owners)))
                  [str_int (Zad1.Owner.id o); Zad1.Owner.name o; Zad1.Owner.phone o])
  /\ (forall (pets : list Zad1.Pet.t) (show_owner : bool),
        pets <> [] ->
        Forall (fun h => Substring h (stdout_of (Zad1.display_pets pets show_owner)))
               (pet_headers show_owner)
        /\ forall p, In p pets ->
             Forall (fun v => Substring v (stdout_of (Zad1.display_pets pets show_owner)))
                    ([str_int (Zad1.Pet.id p); Zad1.Pet.name p; Zad1.Pet.species p;
                      Zad1.Pet.breed p; str_int (Zad1.Pet.age p)]
                     ++ if show_owner then [str_int (Zad1.Pet.owner_id p)] else [])%list)
  /\ (forall workers : list Example1.Worker.t,
        workers <> [] ->
        Forall (fun h => Substring h (stdout_of (Example1.display_workers workers)))
               worker_headers
        /\ forall w, In w workers ->
             Forall (fun v => Substring v (stdout_of (Example1.display_workers workers)))
                    [Example1.Worker.name w; Example1.Worker.post w;
                     str_int (Example1.Worker.year w)]).
Proof.
  split; [| split].
  - intros owners Hne.
    destruct (display_owners_table owners Hne) as [line ->]. split.
    + repeat constructor; in_header.
    + intros o Ho. repeat constructor; in_record Ho.
  - intros pets [|] Hne; cbn [pet_headers app].
    + destruct (display_pets_table_with_owner pets Hne) as [line ->]. split.
      * repeat constructor; in_header.
      * intros p Hp. repeat constructor; in_record Hp.
    + destruct (display_pets_table pets Hne) as [line ->]. split.
      * repeat constructor; in_header.
      * intros p Hp. repeat constructor; in_record Hp.
  - intros workers Hne.
    destruct (display_workers_table workers Hne) as [line ->]. split.
    + repeat constructor; in_header.
    + intros w Hw. destruct (in_enumerate workers w 1 Hw) as [i Hi].
      repeat constructor; in_record Hi.
Qed.

Lemma display_shows_columns_witness :
  Forall (fun v =>
            Substring v
              (stdout_of (Zad1.display_pets
                            [Zad1.Pet.mk 1 "Rex" "dog" "collie" 3 777] true)))
         [str_int 1; "Rex"; "dog"; "collie"; str_int 3; str_int 777]
  /\ Forall (fun h =>
               Substring h
                 (stdout_of (Example1.display_workers
                               [Example1.Worker.mk "Alice" "Engineer" 2015])))
            worker_headers.
Proof.
  split.
  - refine (proj2 (proj1 (proj2 display_shows_columns)
                     [Zad1.Pet.mk 1 "Rex" "dog" "collie" 3 777] true _)
                  (Zad1.Pet.mk 1 "Rex" "dog" "collie" 3 777) (or_introl eq_refl)).
    discriminate.
  - refine (proj1 (proj2 (proj2 display_shows_columns)
                     [Example1.Worker.mk "Alice" "Engineer" 2015] _)).
    discriminate.
Defined.

Example display_pets_sample :
  Zad1.display_pets [Zad1.Pet.mk 1 "Барсик" "Кошка" "Британская" 3 1] false
  = ["+------+---------------+---------------+--------------------+------+";
     "|   ID   |     Кличка      |       Вид       |        Порода        | Возраст |";
     "+------+---------------+---------------+--------------------+------+";
     "|   1    |     Барсик      |      Кошка      |      Британская      |   3    |";
     "+------+---------------+---------------+--------------------+------+"].
Proof. reflexivity. Qed.

(** * Further properties of the repositories *)

(** ** Owners: insertion and lookup *)

Lemma filter_fresh_key {A : Type} (key : A -> Z) (l : list A) (k : Z) :
  ~ In k (map key l) -> filter (fun x => (key x =? k)%Z) l = [].
Proof.
  intros H. apply filter_none. apply not_true_is_false. intros E.
  apply existsb_exists in E. destruct E as [x [Hx Hk]].
  apply Z.eqb_eq in Hk. apply H. rewrite <- Hk. now apply in_map.
Qed.

(** X1. While an owner key is left, that is, the largest stored owner id
    is below 2^63 - 1, [add_owner] returns.  It appends one owner row,
    with the given name and phone and an id no stored owner has, and
    leaves the pets as they are; looking that id up afterwards returns
    the owner just added.  Once the largest key is stored, [add_owner]
    raises [OperationalError] and stores nothing. *)
Theorem add_owner_then_lookup (d : PetsDb.t) (name phone : string) :
  (PetsDb.owner_keys_left d = true ->
   exists rid d',
     Zad1.add_owner name phone d = (Returned tt, d')
     /\ ~ In rid (map owners.owner_id (PetsDb.owners_table d))
     /\ PetsDb.owners_table d'
        = (PetsDb.owners_table d ++ [owners.mk rid name phone])%list
     /\ PetsDb.pets_table d' = PetsDb.pets_table d
     /\ Zad1.get_owner_by_id rid d'
        = (Returned (Some (Zad1.Owner.mk rid name phone)), d'))
  /\ (PetsDb.owner_keys_left d = false ->
      Zad1.add_owner name phone d
      = (Raised (OperationalError "database or disk is full"), d)).
Proof.
  split; [| now apply add_owner_full].
  intros K.
  exists (Sqlite.next_rowid (map owners.owner_id (PetsDb.owners_table d))).
  eexists. split; [now apply add_owner_left |].
  split; [apply next_rowid_fresh |].
  split; [reflexivity | split; [reflexivity |]].
  unfold Zad1.get_owner_by_id, bind.
  rewrite select_owner_fits by now apply next_rowid_fits.
  cbn [PetsDb.owners_table]. rewrite filter_app.
  rewrite (filter_fresh_key owners.owner_id _ _ (next_rowid_fresh _)).
  cbn [filter app owners.owner_id]. now rewrite Z.eqb_refl.
Qed.

Lemma add_owner_then_lookup_witness :
  (exists rid d',
      Zad1.add_owner "Bob" "777" ann_and_rex = (Returned tt, d')
      /\ ~ In rid (map owners.owner_id (PetsDb.owners_table ann_and_rex))
      /\ PetsDb.owners_table d'
         = (PetsDb.owners_table ann_and_rex ++ [owners.mk rid "Bob" "777"])%list
      /\ PetsDb.pets_table d' = PetsDb.pets_table ann_and_rex
      /\ Zad1.get_owner_by_id rid d'
         = (Returned (Some (Zad1.Owner.mk rid "Bob" "777")), d'))
  /\ Zad1.add_owner "Bob" "777" last_owner_key_taken
     = (Raised (OperationalError "database or disk is full"), last_owner_key_taken).
Proof.
  split.
  - exact (proj1 (add_owner_then_lookup ann_and_rex "Bob" "777") eq_refl).
  - exact (proj2 (add_owner_then_lookup last_owner_key_taken "Bob" "777") eq_refl).
Defined.

Lemma zad1_get_owner_fits (d : PetsDb.t) (i : Z) :
  Sqlite.fits i = true ->
  Zad1.get_owner_by_id i d
  = (Returned
       (option_map Zad1.owner_of_row
          (Sqlite.fetchone
             (filter (fun o => (owners.owner_id o =? i)%Z) (PetsDb.owners_table d)))),
     d).
Proof.
  intros H. unfold Zad1.get_owner_by_id, bind.
  rewrite (select_owner_fits d i H).
  now destruct (Sqlite.fetchone _).
Qed.

(** X2. For an id that is a signed 64-bit integer, [get_owner_by_id]
    returns and stores nothing.  It returns [None] exactly when no stored
    owner has the id; otherwise it returns the first stored owner with
    that id, whose [id] field is the id asked for.  For any other id it
    raises [OverflowError] and stores nothing. *)
Theorem get_owner_by_id_lookup (d : PetsDb.t) (i : Z) :
  (Sqlite.fits i = true ->
   exists r,
     Zad1.get_owner_by_id i d = (Returned r, d)
     /\ match r with
        | None =>
            forall row, In row (PetsDb.owners_table d) -> owners.owner_id row <> i
        | Some o =>
            Zad1.Owner.id o = i
            /\ exists before row after,
                 PetsDb.owners_table d = (before ++ row :: after)%list
                 /\ o = Zad1.owner_of_row row
                 /\ forall row', In row' before -> owners.owner_id row' <> i
        end)
  /\ (Sqlite.fits i = false ->
      Zad1.get_owner_by_id i d = (Raised Sqlite.too_large, d)).
Proof.
  split; [| now apply zad1_get_owner_too_large].
  intros Hi. rewrite (zad1_get_owner_fits d i Hi).
  eexists. split; [reflexivity |].
  induction (PetsDb.owners_table d) as [|row rows IH]; cbn [filter].
  - intros row [].
  - destruct (owners.owner_id row =? i)%Z eqn:E.
    + cbn [Sqlite.fetchone hd_error option_map].
      apply Z.eqb_eq in E. split; [exact E |].
      exists [], row, rows. repeat split. intros row' [].
    + apply Z.eqb_neq in E.
      destruct (option_map Zad1.owner_of_row (Sqlite.fetchone _)) as [o |].
      * destruct IH as [Hid [before [row0 [after [-> [-> Hb]]]]]].
        split; [exact Hid |].
        exists (row :: before), row0, after. repeat split.
        intros row' [<- | H]; [exact E | now apply Hb].
      * intros row' [<- | H]; [exact E | now apply IH].
Qed.

Lemma get_owner_by_id_lookup_witness :
  (exists r,
      Zad1.get_owner_by_id 1 ann_and_rex = (Returned r, ann_and_rex)
      /\ match r with
         | None =>
             forall row, In row (PetsDb.owners_table ann_and_rex) ->
                         owners.owner_id row <> 1
         | Some o =>
             Zad1.Owner.id o = 1
             /\ exists before row after,
                  PetsDb.owners_table ann_and_rex = (before ++ row :: after)%list
                  /\ o = Zad1.owner_of_row row
                  /\ forall row', In row' before -> owners.owner_id row' <> 1
         end)
  /\ Zad1.get_owner_by_id 9223372036854775808 ann_and_rex
     = (Raised Sqlite.too_large, ann_and_rex).
Proof.
  split.
  - exact (proj1 (get_owner_by_id_lookup ann_and_rex 1) eq_refl).
  - exact (proj2 (get_owner_by_id_lookup ann_and_rex 9223372036854775808) eq_refl).
Defined.

(** X3. [get_all_owners] returns every stored owner exactly once, in
    ascending bytewise order of the names, and stores nothing. *)
Theorem get_all_owners_exact (d : PetsDb.t) :
  exists recs,
    Zad1.get_all_owners d = (Returned recs, d)
    /\ Permutation recs (map Zad1.owner_of_row (PetsDb.owners_table d))
    /\ StronglySorted (Sqlite.key_le Zad1.Owner.name) recs.
Proof.
  eexists. split; [reflexivity | split].
  - apply Permutation_map. symmetry. apply order_by_perm.
  - apply (ascending_map Zad1.owner_of_row owners.owner_name); [reflexivity |].
    apply order_by_ascending.
Qed.

(** ** Pets: insertion and listing *)

Lemma NoDup_snoc {A : Type} (l : list A) (x : A) :
  NoDup l -> ~ In x l -> NoDup (l ++ [x])%list.
Proof.
  intros Hl Hx. apply Permutation_NoDup with (l := x :: l).
  - apply Permutation_cons_append.
  - now constructor.
Qed.

(** X4. For a stored owner, an age and an owner id that are signed
    64-bit integers, and while a pet key is left, [add_pet] returns: it
    appends one pet row with the given fields and an id no stored pet
    has, and leaves the owners as they are.  The pets then listed for
    that owner are the ones listed before together with the new one. *)
Theorem add_pet_then_listed
    (d : PetsDb.t) (name species breed : string) (age oid : Z) :
  PetsDb.owner_exists d oid = true ->
  Sqlite.fits age = true -> Sqlite.fits oid = true ->
  PetsDb.pet_keys_left d = true ->
  exists rid d' before after,
    Zad1.add_pet name species breed age oid d = (Returned tt, d')
    /\ ~ In rid (map pets.pet_id (PetsDb.pets_table d))
    /\ PetsDb.pets_table d'
       = (PetsDb.pets_table d ++ [pets.mk rid name species breed age oid])%list
    /\ PetsDb.owners_table d' = PetsDb.owners_table d
    /\ Zad1.get_pets_by_owner oid d = (Returned before, d)
    /\ Zad1.get_pets_by_owner oid d' = (Returned after, d')
    /\ Permutation after (Zad1.Pet.mk rid name species breed age oid :: before).
Proof.
  intros Hk Ha Ho Hl.
  exists (Sqlite.next_rowid (map pets.pet_id (PetsDb.pets_table d))).
  eexists. eexists. eexists.
  split; [now apply zad1_add_pet_known_owner |].
  split; [apply next_rowid_fresh |].
  split; [reflexivity | split; [reflexivity |]].
  split; [now apply zad1_get_pets | split; [now apply zad1_get_pets |]].
  cbn [PetsDb.pets_table]. rewrite filter_app.
  cbn [filter pets.owner_id]. rewrite Z.eqb_refl.
  change (Zad1.Pet.mk ?r name species breed age oid)
    with (Zad1.pet_of_row (pets.mk r name species breed age oid)).
  rewrite <- map_cons. apply Permutation_map.
  rewrite <- order_by_perm.
  rewrite <- Permutation_cons_append.
  constructor. apply order_by_perm.
Qed.

Lemma add_pet_then_listed_witness :
  exists rid d' before after,
    Zad1.add_pet "Tom" "cat" "siamese" 2 1 ann_and_rex = (Returned tt, d')
    /\ ~ In rid (map pets.pet_id (PetsDb.pets_table ann_and_rex))
    /\ PetsDb.pets_table d'
       = (PetsDb.pets_table ann_and_rex
          ++ [pets.mk rid "Tom" "cat" "siamese" 2 1])%list
    /\ PetsDb.owners_table d' = PetsDb.owners_table ann_and_rex
    /\ Zad1.get_pets_by_owner 1 ann_and_rex = (Returned before, ann_and_rex)
    /\ Zad1.get_pets_by_owner 1 d' = (Returned after, d')
    /\ Permutation after (Zad1.Pet.mk rid "Tom" "cat" "siamese" 2 1 :: before).
Proof.
  exact (add_pet_then_listed ann_and_rex "Tom" "cat" "siamese" 2 1
           eq_refl eq_refl eq_refl eq_refl).
Defined.

(** ** The schema's constraints are kept *)

Lemma owner_exists_more (d : PetsDb.t) (more : list owners.row)
    (ps : list pets.row) (i : Z) :
  PetsDb.owner_exists d i = true ->
  PetsDb.owner_exists (PetsDb.mk (PetsDb.owners_table d ++ more)%list ps) i = true.
Proof.
  unfold PetsDb.owner_exists. cbn [PetsDb.owners_table].
  intros H. now rewrite existsb_app, H.
Qed.

Lemma insert_owner_keeps (d : PetsDb.t) (name phone : string) :
  PetsDb.primary_key_ok d -> PetsDb.foreign_key_ok d ->
  PetsDb.primary_key_ok (stored_after (PetsDb.insert_owner name phone d))
  /\ PetsDb.foreign_key_ok (stored_after (PetsDb.insert_owner name phone d)).
Proof.
  intros [Ho Hp] Hfk. unfold PetsDb.insert_owner, Sqlite.new_rowid, stored_after.
  destruct (Sqlite.keys_left _); cbn [snd]; [| now split].
  split.
  - split; cbn [PetsDb.owners_table PetsDb.pets_table]; [| exact Hp].
    rewrite map_app. apply NoDup_snoc; [exact Ho | apply next_rowid_fresh].
  - intros p Hin. cbn [PetsDb.pets_table] in Hin.
    apply owner_exists_more. now apply Hfk.
Qed.

(** An insert that raises stores nothing; one that returns was given a
    stored owner, or ran unchecked. *)
Lemma insert_pet_keeps (d : PetsDb.t) (fk : bool)
    (name species breed : string) (age oid : Z) :
  PetsDb.primary_key_ok d -> PetsDb.foreign_key_ok d ->
  PetsDb.owner_exists d oid = true ->
  PetsDb.primary_key_ok
    (stored_after (PetsDb.insert_pet fk name species breed age oid d))
  /\ PetsDb.foreign_key_ok
       (stored_after (PetsDb.insert_pet fk name species breed age oid d)).
Proof.
  intros [Ho Hp] Hfk Hk.
  destruct (insert_pet_cases d fk name species breed age oid)
    as [[_ E] | [[_ [_ E]] | [[_ [_ [_ E]]] | [_ [_ [_ E]]]]]]; rewrite E;
    unfold stored_after; cbn [snd]; try (now split).
  split.
  - split; cbn [PetsDb.owners_table PetsDb.pets_table]; [exact Ho |].
    rewrite map_app. apply NoDup_snoc; [exact Hp | apply next_rowid_fresh].
  - intros p Hin. cbn [PetsDb.pets_table] in Hin.
    unfold PetsDb.owner_exists. cbn [PetsDb.owners_table].
    apply in_app_or in Hin. destruct Hin as [Hin | [<- | []]].
    + now apply Hfk.
    + exact Hk.
Qed.

(** X5. The writing operations of both repositories keep the constraints
    of the schema: if the ids of the owners and of the pets are unique
    and every pet refers to a stored owner, the same holds after
    [add_owner] and after [add_pet], whatever the arguments.  For the
    mapper-based [add_pet] this does not depend on the engine enforcing
    foreign keys: a pet without a stored owner is never stored. *)
Theorem pets_constraints_kept (d : PetsDb.t) :
  PetsDb.primary_key_ok d -> PetsDb.foreign_key_ok d ->
  (forall name phone,
      PetsDb.primary_key_ok (stored_after (Zad1.add_owner name phone d))
      /\ PetsDb.foreign_key_ok (stored_after (Zad1.add_owner name phone d))
      /\ PetsDb.primary_key_ok (stored_after (Zad2.add_owner name phone d))
      /\ PetsDb.foreign_key_ok (stored_after (Zad2.add_owner name phone d)))
  /\ (forall name species breed age oid,
        PetsDb.primary_key_ok
          (stored_after (Zad1.add_pet name species breed age oid d))
        /\ PetsDb.foreign_key_ok
             (stored_after (Zad1.add_pet name species breed age oid d)))
  /\ (forall fk name species breed age oid,
        PetsDb.primary_key_ok
          (stored_after (Zad2.add_pet fk name species breed age oid d))
        /\ PetsDb.foreign_key_ok
             (stored_after (Zad2.add_pet fk name species breed age oid d))).
Proof.
  intros Hpk Hfk.
  assert (Z1 : forall name species breed age oid,
    PetsDb.primary_key_ok
      (stored_after (Zad1.add_pet name species breed age oid d))
    /\ PetsDb.foreign_key_ok
         (stored_after (Zad1.add_pet name species breed age oid d))).
  { intros name species breed age oid.
    destruct (PetsDb.owner_exists d oid) eqn:E.
    - pose proof (insert_pet_keeps d Zad1.foreign_keys name species breed age oid
                    Hpk Hfk E) as K.
      unfold Zad1.add_pet, bind, stored_after in *.
      destruct (PetsDb.insert_pet _ _ _ _ _ _ d) as [[a | e] d']; exact K.
    - destruct (zad1_add_pet_rejected d name species breed age oid E) as [e ->].
      now split. }
  split; [| split].
  - intros name phone.
    pose proof (insert_owner_keeps d name phone Hpk Hfk) as K.
    assert (K' : PetsDb.primary_key_ok (stored_after (Zad1.add_owner name phone d))
                 /\ PetsDb.foreign_key_ok
                      (stored_after (Zad1.add_owner name phone d))).
    { unfold Zad1.add_owner, bind, stored_after in *.
      destruct (PetsDb.insert_owner name phone d) as [[a | e] d']; exact K. }
    destruct K' as [K1 K2].
    exact (conj K1 (conj K2 (conj K1 K2))).
  - exact Z1.
  - intros fk name species breed age oid.
    destruct (Sqlite.fits oid) eqn:Ho.
    + destruct (PetsDb.owner_exists d oid) eqn:E.
      * rewrite (zad2_add_pet_known_owner d oid E Ho). apply Z1.
      * rewrite (zad2_add_pet_unknown_owner d oid E Ho). now split.
    + rewrite (zad2_add_pet_too_large d fk name species breed age oid Ho).
      now split.
Qed.

Lemma ann_and_rex_keys_ok : PetsDb.primary_key_ok ann_and_rex.
Proof.
  split; simpl; repeat constructor; simpl; intuition discriminate.
Qed.

Lemma ann_and_rex_references_ok : PetsDb.foreign_key_ok ann_and_rex.
Proof. intros p [<- | [<- | []]]; reflexivity. Qed.

Lemma pets_constraints_kept_witness :
  PetsDb.primary_key_ok
    (stored_after (Zad2.add_pet false "Tom" "cat" "siamese" 2 9 ann_and_rex))
  /\ PetsDb.foreign_key_ok
       (stored_after (Zad2.add_pet false "Tom" "cat" "siamese" 2 9 ann_and_rex)).
Proof.
  exact (proj2 (proj2 (pets_constraints_kept ann_and_rex
                         ann_and_rex_keys_ok ann_and_rex_references_ok))
               false "Tom" "cat" "siamese" 2 9).
Defined.

(** ** Listing by owner is filtering the full listing *)

Section FilterOrdered.

Context {A : Type} (key : A -> string) (keep : A -> bool).

Lemma insert_by_first (x : A) (l : list A) :
  Forall (Sqlite.key_le key x) l -> Sqlite.insert_by key x l = x :: l.
Proof.
  destruct l as [|y l]; [reflexivity |].
  intros H. inversion H as [|? ? Hy _]; subst.
  unfold Sqlite.key_le in Hy. cbn [Sqlite.insert_by]. now rewrite Hy.
Qed.

Lemma filter_insert_by (x : A) (l : list A) :
  StronglySorted (Sqlite.key_le key) l ->
  filter keep (Sqlite.insert_by key x l)
  = if keep x then Sqlite.insert_by key x (filter keep l) else filter keep l.
Proof.
  induction 1 as [|y l Hs IH Hall]; cbn [Sqlite.insert_by].
  - cbn [filter]. now destruct (keep x).
  - destruct (String.leb (key x) (key y)) eqn:E.
    + change (filter keep (x :: y :: l))
        with (if keep x then x :: filter keep (y :: l) else filter keep (y :: l)).
      destruct (keep x); [| reflexivity].
      symmetry. apply insert_by_first.
      assert (Hx : Forall (Sqlite.key_le key x) (y :: l)).
      { constructor; [exact E |].
        rewrite Forall_forall in *. intros z Hz.
        apply (leb_trans _ (key y)); [exact E | now apply Hall]. }
      rewrite Forall_forall in *. intros z Hz.
      apply Hx. now apply filter_In in Hz.
    + cbn [filter]. rewrite IH.
      destruct (keep y), (keep x); cbn [Sqlite.insert_by];
        try rewrite E; reflexivity.
Qed.

Lemma filter_order_by (l : list A) :
  filter keep (Sqlite.order_by key l) = Sqlite.order_by key (filter keep l).
Proof.
  induction l as [|x l IH]; [reflexivity |].
  cbn [Sqlite.order_by fold_right filter].
  fold (Sqlite.order_by key l).
  rewrite filter_insert_by by apply order_by_ascending.
  rewrite IH. now destruct (keep x).
Qed.

End FilterOrdered.

(** X6. For an id that is a signed 64-bit integer, the pets
    [get_pets_by_owner] returns are, in the same order, the records of
    [get_all_pets] whose [owner_id] is that id.  For any other id
    [get_pets_by_owner] raises [OverflowError]. *)
Theorem get_pets_by_owner_filters_all (d : PetsDb.t) (i : Z) :
  exists all,
    Zad1.get_all_pets d = (Returned all, d)
    /\ (Sqlite.fits i = true ->
        Zad1.get_pets_by_owner i d
        = (Returned (filter (fun p => (Zad1.Pet.owner_id p =? i)%Z) all), d))
    /\ (Sqlite.fits i = false ->
        Zad1.get_pets_by_owner i d = (Raised Sqlite.too_large, d)).
Proof.
  eexists. split; [reflexivity |].
  split; [| now apply zad1_get_pets_too_large].
  intros Hi. rewrite (zad1_get_pets d i Hi). do 2 f_equal.
  rewrite filter_map_commute. f_equal.
  symmetry. apply filter_order_by.
Qed.

Lemma get_pets_by_owner_filters_all_witness :
  exists all,
    Zad1.get_all_pets ann_and_rex = (Returned all, ann_and_rex)
    /\ Zad1.get_pets_by_owner 1 ann_and_rex
       = (Returned (filter (fun p => (Zad1.Pet.owner_id p =? 1)%Z) all), ann_and_rex)
    /\ Zad1.get_pets_by_owner 9223372036854775808 ann_and_rex
       = (Raised Sqlite.too_large, ann_and_rex).
Proof.
  destruct (get_pets_by_owner_filters_all ann_and_rex 1) as [all [H [H1 _]]].
  destruct (get_pets_by_owner_filters_all ann_and_rex 9223372036854775808)
    as [_ [_ [_ H2]]].
  exists all. split; [exact H | split; [exact (H1 eq_refl) | exact (H2 eq_refl)]].
Defined.

(** ** The two programs print alike *)

Lemma zad2_display_owners_as_zad1 (owners : list Zad2.OwnerData.t) :
  Zad2.display_owners owners
  = Zad1.display_owners (map Contract.owner_as_zad1 owners).
Proof.
  destruct owners as [|o os]; [reflexivity |].
  unfold Zad2.display_owners, Zad1.display_owners.
  cbn [map]. now rewrite map_map.
Qed.

Lemma zad2_display_pets_as_zad1 (pets : list Zad2.PetData.t) (show_owner : bool) :
  Zad2.display_pets pets show_owner
  = Zad1.display_pets (map Contract.pet_as_zad1 pets) show_owner.
Proof.
  destruct pets as [|p ps]; [reflexivity |].
  unfold Zad2.display_pets, Zad1.display_pets.
  cbn [map]. destruct show_owner; now rewrite map_map.
Qed.

(** X7. The formatters of the mapper-based program print, for every list
    of records and either setting of [show_owner], exactly the lines the
    formatters of the raw-SQL program print for the records with the same
    field values. *)
Theorem zad2_formatters_as_zad1 :
  (forall owners : list Zad2.OwnerData.t,
      Zad2.display_owners owners
      = Zad1.display_owners (map Contract.owner_as_zad1 owners))
  /\ (forall (pets : list Zad2.PetData.t) (show_owner : bool),
        Zad2.display_pets pets show_owner
        = Zad1.display_pets (map Contract.pet_as_zad1 pets) show_owner).
Proof.
  split; [exact zad2_display_owners_as_zad1 | exact zad2_display_pets_as_zad1].
Qed.



(** The title line of the listing of one owner's pets. *)
Lemma zad1_select_known (d : PetsDb.t) (i : Z) :
  PetsDb.owner_exists d i = true -> Sqlite.fits i = true ->
  exists row,
    In row (PetsDb.owners_table d) /\ owners.owner_id row = i
    /\ Zad1.get_owner_by_id i d = (Returned (Some (Zad1.owner_of_row row)), d)
    /\ Zad2.get_owner_by_id i d
       = (Returned (Some (Zad2.owner_data (Zad2.OwnerModel.load row))), d).
Proof.
  intros Hk Hi.
  unfold Zad1.get_owner_by_id, Zad2.get_owner_by_id, Zad2.query_owner_first, bind.
  rewrite (select_owner_fits d i Hi).
  destruct (filter_some _ _ Hk) as [row [rest [-> [Hin Hid]]]].
  exists row. apply Z.eqb_eq in Hid. repeat split; assumption.
Qed.

(** X9. The [select_pets_by_owner] command of the raw-SQL program stores
    nothing.  For an id that is a signed 64-bit integer it lets no
    exception escape: for an id no owner has it prints the "not found"
    line alone; otherwise it prints a title line with the name and the id
    of the owner, followed by the table of that owner's pets without the
    owner column, which is the "empty" message when the owner has no pet.
    For an id that is not a signed 64-bit integer it prints nothing and
    lets [OverflowError] escape. *)
Theorem select_pets_by_owner_run (d : PetsDb.t) (i : Z) :
  (Sqlite.fits i = true -> PetsDb.owner_exists d i = false ->
   Zad1.main (cmd_select_pets_by_owner i) d
   = mk_run ["Ошибка: Владелец с ID " ++ str_int i ++ " не найден!"] None d)
  /\ (Sqlite.fits i = true -> PetsDb.owner_exists d i = true ->
      exists o pets,
        Zad1.get_owner_by_id i d = (Returned (Some o), d)
        /\ Zad1.get_pets_by_owner i d = (Returned pets, d)
        /\ Zad1.main (cmd_select_pets_by_owner i) d
           = mk_run
               (("Животные владельца '" ++ Zad1.Owner.name o ++ "' (ID: "
                   ++ str_int i ++ "):")
                :: Zad1.display_pets pets false)
               None d
        /\ ((forall p, In p (PetsDb.pets_table d) -> pets.owner_id p <> i) ->
            printed (Zad1.main (cmd_select_pets_by_owner i) d)
            = ["Животные владельца '" ++ Zad1.Owner.name o ++ "' (ID: "
                 ++ str_int i ++ "):";
               "Список животных пуст."]))
  /\ (Sqlite.fits i = false ->
      Zad1.main (cmd_select_pets_by_owner i) d
      = mk_run [] (Some Sqlite.too_large) d).
Proof.
  split; [| split].
  - intros Hi Hu. cbn [Zad1.main]. unfold Zad1.main_select_pets_by_owner.
    now rewrite (zad1_get_unknown_owner d i Hu Hi).
  - intros Hi Hk. destruct (zad1_select_known d i Hk Hi) as [row [Hin [Hid [H1 _]]]].
    exists (Zad1.owner_of_row row). eexists.
    split; [exact H1 | split; [now apply zad1_get_pets |]].
    assert (M : Zad1.main (cmd_select_pets_by_owner i) d
      = mk_run
          (("Животные владельца '" ++ Zad1.Owner.name (Zad1.owner_of_row row)
              ++ "' (ID: " ++ str_int i ++ "):")
           :: Zad1.display_pets
                (map Zad1.pet_of_row
                   (Sqlite.order_by pets.pet_name
                      (filter (fun p => (pets.owner_id p =? i)%Z)
                              (PetsDb.pets_table d)))) false)
          None d).
    { cbn [Zad1.main]. unfold Zad1.main_select_pets_by_owner.
      rewrite H1, (zad1_get_pets d i Hi). cbn [Zad1.owner_of_row Zad1.Owner.id].
      now rewrite Hid. }
    split; [exact M |].
    intros Hnone. rewrite M. cbn [printed].
    rewrite (filter_none (fun p => (pets.owner_id p =? i)%Z)); [reflexivity |].
    apply not_true_is_false. intros E. apply existsb_exists in E.
    destruct E as [p [Hp Hpi]]. apply Z.eqb_eq in Hpi. now apply (Hnone p).
  - intros Hi. cbn [Zad1.main]. unfold Zad1.main_select_pets_by_owner.
    now rewrite (zad1_get_owner_too_large d i Hi).
Qed.

Lemma select_pets_by_owner_run_witness :
  Zad1.main (cmd_select_pets_by_owner 7) ann_and_rex
  = mk_run ["Ошибка: Владелец с ID 7 не найден!"] None ann_and_rex
  /\ (exists o pets,
        Zad1.get_owner_by_id 1 ann_and_rex = (Returned (Some o), ann_and_rex)
        /\ Zad1.get_pets_by_owner 1 ann_and_rex = (Returned pets, ann_and_rex)
        /\ Zad1.main (cmd_select_pets_by_owner 1) ann_and_rex
           = mk_run
               (("Животные владельца '" ++ Zad1.Owner.name o ++ "' (ID: "
                   ++ str_int 1 ++ "):")
                :: Zad1.display_pets pets false)
               None ann_and_rex)
  /\ Zad1.main (cmd_select_pets_by_owner 9223372036854775808) ann_and_rex
     = mk_run [] (Some Sqlite.too_large) ann_and_rex.
Proof.
  split; [| split].
  - exact (proj1 (select_pets_by_owner_run ann_and_rex 7) eq_refl eq_refl).
  - destruct (proj1 (proj2 (select_pets_by_owner_run ann_and_rex 1)) eq_refl eq_refl)
      as [o [ps [H1 [H2 [H3 _]]]]].
    exists o, ps. repeat split; assumption.
  - exact (proj2 (proj2 (select_pets_by_owner_run ann_and_rex 9223372036854775808))
             eq_refl).
Defined.




(** ** From a command to the table *)

Lemma display_owners_shows (owners : list Zad1.Owner.t) (o : Zad1.Owner.t) :
  In o owners ->
  Substring (Zad1.Owner.name o) (stdout_of (Zad1.display_owners owners))
  /\ Substring (Zad1.Owner.phone o) (stdout_of (Zad1.display_owners owners))
  /\ Substring (str_int (Zad1.Owner.id o)) (stdout_of (Zad1.display_owners owners)).
Proof.
  intros Ho.
  assert (Hne : owners <> []) by (intros ->; destruct Ho).
  destruct (display_owners_table owners Hne) as [line ->].
  repeat split; in_record Ho.
Qed.

(** X11. In the raw-SQL program, while an owner key is left, [add_owner]
    prints its confirmation, lets no exception escape and, on the
    database it leaves, [display_owners] prints a table in which the name
    and the phone just given occur.  Once the largest key is stored, it
    prints the line for a storage error, with the engine's message, and
    stores nothing. *)
Theorem add_owner_then_display (d : PetsDb.t) (name phone : string) :
  (PetsDb.owner_keys_left d = true ->
   printed (Zad1.main (cmd_add_owner name phone) d)
   = ["Владелец '" ++ name ++ "' успешно добавлен!"]
   /\ escaped (Zad1.main (cmd_add_owner name phone) d) = None
   /\ Substring name
        (stdout_of (printed (Zad1.main cmd_display_owners
                               (stored (Zad1.main (cmd_add_owner name phone) d)))))
   /\ Substring phone
        (stdout_of (printed (Zad1.main cmd_display_owners
                               (stored (Zad1.main (cmd_add_owner name phone) d))))))
  /\ (PetsDb.owner_keys_left d = false ->
      Zad1.main (cmd_add_owner name phone) d
      = mk_run ["Ошибка при добавлении владельца: database or disk is full"] None d).
Proof.
  split.
  - intros K. cbn [Zad1.main]. unfold Zad1.main_add_owner.
    rewrite (add_owner_left d name phone K). cbn [printed escaped stored].
    split; [reflexivity | split; [reflexivity |]].
    unfold Zad1.main_display_owners.
    unfold Zad1.get_all_owners, bind, PetsDb.select_owners, query, ret.
    cbn [stored printed PetsDb.owners_table].
    set (rid := Sqlite.next_rowid _).
    set (rows := Sqlite.order_by _ _).
    assert (Hin : In (Zad1.Owner.mk rid name phone) (map Zad1.owner_of_row rows)).
    { change (Zad1.Owner.mk rid name phone)
        with (Zad1.owner_of_row (owners.mk rid name phone)).
      apply in_map. subst rows.
      apply (Permutation_in _ (order_by_perm owners.owner_name _)).
      apply in_or_app. right. now left. }
    destruct (display_owners_shows _ _ Hin) as [Hn [Hp _]].
    split; assumption.
  - intros K. cbn [Zad1.main]. unfold Zad1.main_add_owner.
    now rewrite (add_owner_full d name phone K).
Qed.

Lemma add_owner_then_display_witness :
  printed (Zad1.main (cmd_add_owner "Bob" "777") ann_and_rex)
  = ["Владелец 'Bob' успешно добавлен!"]
  /\ Zad1.main (cmd_add_owner "Bob" "777") last_owner_key_taken
     = mk_run ["Ошибка при добавлении владельца: database or disk is full"] None
              last_owner_key_taken.
Proof.
  split.
  - exact (proj1 (proj1 (add_owner_then_display ann_and_rex "Bob" "777") eq_refl)).
  - exact (proj2 (add_owner_then_display last_owner_key_taken "Bob" "777") eq_refl).
Defined.

(** * Further properties of the staff repository *)

(** ** Selecting is filtering the full listing *)

Lemma select_by_period_eq (d : StaffDb.t) (year_now period : Z) :
  Sqlite.fits period = true ->
  Example1.select_by_period year_now period d
  = (Returned
       (filter (served year_now period)
               (map Example1.worker_of_row
                    (flat_map (StaffDb.join_posts d) (StaffDb.workers_table d)))),
     d).
Proof.
  intros H. rewrite (select_by_period_fits d year_now period H).
  now rewrite filter_map_commute.
Qed.



Lemma filter_narrows {A : Type} (f g : A -> bool) (l : list A) :
  (forall x, g x = true -> f x = true) ->
  filter g (filter f l) = filter g l.
Proof.
  intros H. induction l as [|x l IH]; [reflexivity |].
  cbn [filter]. destruct (f x) eqn:Ef; cbn [filter].
  - now rewrite IH.
  - destruct (g x) eqn:Eg; [| exact IH].
    rewrite (H x Eg) in Ef. discriminate.
Qed.

(** X13. A longer period selects fewer workers: for [p1 <= p2], both
    signed 64-bit integers, the records selected for [p2] are those among
    the records selected for [p1] that reach [p2], in the same order. *)
Theorem select_by_period_narrows (d : StaffDb.t) (year_now p1 p2 : Z) :
  p1 <= p2 -> Sqlite.fits p1 = true -> Sqlite.fits p2 = true ->
  exists r1,
    Example1.select_by_period year_now p1 d = (Returned r1, d)
    /\ Example1.select_by_period year_now p2 d
       = (Returned
            (filter (fun w => (year_now - Example1.Worker.year w >=? p2)%Z) r1),
          d).
Proof.
  intros Hle H1 H2. eexists. split; [now apply select_by_period_eq |].
  rewrite (select_by_period_eq d year_now p2 H2). do 2 f_equal.
  symmetry. apply filter_narrows.
  intros w. unfold served. rewrite !Z.geb_leb, !Z.leb_le. lia.
Qed.

Lemma select_by_period_narrows_witness :
  exists r1,
    Example1.select_by_period 2026 2 engineers = (Returned r1, engineers)
    /\ Example1.select_by_period 2026 8 engineers
       = (Returned
            (filter (fun w => (2026 - Example1.Worker.year w >=? 8)%Z) r1),
          engineers).
Proof.
  apply (select_by_period_narrows engineers 2026 2 8); [lia | |]; reflexivity.
Defined.

(** ** Adding a worker, then listing *)

Lemma flat_map_same {A B : Type} (f g : A -> list B) (l : list A) :
  (forall x, In x l -> f x = g x) -> flat_map f l = flat_map g l.
Proof.
  induction l as [|x l IH]; intros H; [reflexivity |].
  cbn [flat_map]. rewrite (H x (or_introl eq_refl)). f_equal.
  apply IH. intros y Hy. apply H. now right.
Qed.

Lemma post_exists_id (d : StaffDb.t) (i : Z) :
  StaffDb.post_exists d i = true -> In i (map posts.post_id (StaffDb.posts_table d)).
Proof.
  unfold StaffDb.post_exists. intros H. apply existsb_exists in H.
  destruct H as [p [Hp Hi]]. apply Z.eqb_eq in Hi. rewrite <- Hi. now apply in_map.
Qed.

(** Looking a title up, or creating it, changes the post of no worker
    that referred to a stored post. *)
Lemma looked_up_join_same (d : StaffDb.t) (t : string) (i : Z) (d1 : StaffDb.t)
    (ws : list workers.row) (w : workers.row) :
  looked_up d t i d1 ->
  StaffDb.post_exists d (workers.post_id w) = true ->
  StaffDb.join_posts (StaffDb.mk (StaffDb.posts_table d1) ws) w
  = StaffDb.join_posts d w.
Proof.
  intros [p Hin Ht Hi -> | Hno Hi ->] Hex; [reflexivity |].
  unfold StaffDb.join_posts. cbn [StaffDb.posts_table].
  rewrite filter_app. cbn [filter posts.post_id].
  destruct (i =? workers.post_id w)%Z eqn:E.
  - apply Z.eqb_eq in E. exfalso.
    apply (next_rowid_fresh (map posts.post_id (StaffDb.posts_table d))).
    rewrite <- Hi, E. now apply post_exists_id.
  - now rewrite app_nil_r.
Qed.

Lemma add_worker_then_all (fk : bool) (d : StaffDb.t) (name post : string) (year : Z) :
  StaffDb.primary_key_ok d -> StaffDb.foreign_key_ok d ->
  Sqlite.fits year = true -> StaffDb.post_ids_fit d = true ->
  StaffDb.post_keys_left d = true -> StaffDb.worker_keys_left d = true ->
  exists all d',
    Example1.get_all_workers d = (Returned all, d)
    /\ Example1.add_worker fk name post year d = (Returned tt, d')
    /\ Example1.get_all_workers d'
       = (Returned (all ++ [Example1.Worker.mk name post year])%list, d').
Proof.
  intros Hpk Hfk Hy Hfit Kp Kw.
  destruct (add_worker_returns fk d name post year Hy Hfit Kp Kw)
    as [pid [d1 [wid [H [L A]]]]].
  eexists. eexists. split; [reflexivity | split; [exact A |]].
  unfold Example1.get_all_workers, bind, StaffDb.select_workers, query, ret.
  f_equal. f_equal. cbn [StaffDb.workers_table].
  pose proof (looked_up_workers d post pid d1 L) as Hw.
  rewrite Hw, flat_map_app, map_app. f_equal.
  - f_equal. apply flat_map_same. intros w Hin.
    apply (looked_up_join_same d post pid d1 _ w L). now apply Hfk.
  - cbn [flat_map]. rewrite app_nil_r.
    pose proof (looked_up_keeps_keys d post pid d1 L Hpk) as Hpk1.
    pose proof (looked_up_post_exists d post pid d1 L) as Hex.
    destruct (join_posts_one d1 (workers.mk wid name pid year) Hpk1 Hex)
      as [p [Hin [Hid Hj]]].
    destruct (looked_up_exists d post pid d1 L) as [p0 [Hin0 [Hid0 Ht0]]].
    assert (p = p0).
    { apply (NoDup_key_inj posts.post_id (StaffDb.posts_table d1)); auto.
      cbn [workers.post_id] in Hid. congruence. }
    subst p0.
    change (StaffDb.join_posts
              (StaffDb.mk (StaffDb.posts_table d1)
                 (StaffDb.workers_table d ++ [workers.mk wid name pid year])%list)
              (workers.mk wid name pid year))
      with (StaffDb.join_posts d1 (workers.mk wid name pid year)).
    rewrite Hj. cbn. now rewrite Ht0.
Qed.



(** ** Posts are only ever appended, one per title *)

(** X16. Whenever [get_or_create_post] returns, a post with the returned
    id and the title asked for is stored; the posts stored before are
    still there, unchanged and in the same place, followed by at most one
    new post; and the workers are as they were.  It returns while a post
    key is left.  When it raises, the exception is the engine's
    [OperationalError], no key is left, and nothing is stored. *)
Theorem get_or_create_post_appends (d : StaffDb.t) (title : string) :
  (forall i d1,
      Example1.get_or_create_post title d = (Returned i, d1) ->
      exists more,
        In (posts.mk i title) (StaffDb.posts_table d1)
        /\ StaffDb.posts_table d1 = (StaffDb.posts_table d ++ more)%list
        /\ (List.length more <= 1)%nat
        /\ StaffDb.workers_table d1 = StaffDb.workers_table d)
  /\ (StaffDb.post_keys_left d = true ->
      exists i d1, Example1.get_or_create_post title d = (Returned i, d1))
  /\ (forall e d1,
        Example1.get_or_create_post title d = (Raised e, d1) ->
        e = Sqlite.full /\ d1 = d /\ StaffDb.post_keys_left d = false).
Proof.
  split; [| split].
  - intros i d1 H.
    destruct (get_or_create_post_looked_up d title i d1 H)
      as [p Hin Ht Hi -> | Hno Hi ->].
    + exists []. split; [| split; [now rewrite app_nil_r
                                  | split; [apply Nat.le_0_l | reflexivity]]].
      destruct p as [pi pt]. cbn in Ht, Hi. now subst.
    + exists [posts.mk i title].
      cbn [StaffDb.posts_table StaffDb.workers_table].
      split; [apply in_or_app; right; now left |].
      split; [reflexivity | split; [apply Nat.le_refl | reflexivity]].
  - intros K. destruct (get_or_create_post_returns d title K) as [i [d1 [H _]]].
    now exists i, d1.
  - intros e d1 H.
    destruct (get_or_create_post_spec d title) as [[i [d1' [H' _]]] | [_ [K H']]];
      rewrite H in H'; [discriminate H' |].
    injection H' as -> ->. auto.
Qed.

Lemma get_or_create_post_appends_witness :
  (exists more,
      In (posts.mk 3 "Driver")
         (StaffDb.posts_table
            (stored_after (Example1.get_or_create_post "Driver" engineers)))
      /\ StaffDb.posts_table
           (stored_after (Example1.get_or_create_post "Driver" engineers))
         = (StaffDb.posts_table engineers ++ more)%list
      /\ (List.length more <= 1)%nat
      /\ StaffDb.workers_table
           (stored_after (Example1.get_or_create_post "Driver" engineers))
         = StaffDb.workers_table engineers)
  /\ StaffDb.post_keys_left last_key_taken = false.
Proof.
  split.
  - exact (proj1 (get_or_create_post_appends engineers "Driver") 3 _ eq_refl).
  - exact (proj2 (proj2 (proj2 (proj2 (get_or_create_post_appends last_key_taken
                                         "Clerk"))
                                 Sqlite.full last_key_taken eq_refl))).
Defined.

Lemma looked_up_keeps_titles (d : StaffDb.t) (t : string) (i : Z) (d1 : StaffDb.t) :
  looked_up d t i d1 -> titles_unique d -> titles_unique d1.
Proof.
  unfold titles_unique.
  intros [p Hin Ht Hi -> | Hno Hi ->] Hu; [exact Hu |].
  cbn [StaffDb.posts_table]. rewrite map_app. cbn [map posts.post_title].
  apply NoDup_snoc; [exact Hu |].
  intros Hin. apply in_map_iff in Hin. destruct Hin as [p [Hp Hin]].
  assert (E : existsb (fun p => String.eqb (posts.post_title p) t)
                      (StaffDb.posts_table d) = true).
  { apply existsb_exists. exists p. split; [exact Hin |].
    now apply String.eqb_eq. }
  congruence.
Qed.

(** X15. The lookup-or-create discipline keeps titles unique: if no two
    stored posts share a title, none do after [get_or_create_post] or
    after [add_worker], whatever the arguments; so no database the
    program builds from the empty one holds a title twice. *)
Theorem post_titles_stay_unique :
  (forall d : StaffDb.t,
      titles_unique d ->
      (forall title,
          titles_unique (stored_after (Example1.get_or_create_post title d)))
      /\ (forall fk name post year,
             titles_unique (stored_after (Example1.add_worker fk name post year d))))
  /\ (forall d : StaffDb.t, staff_reachable d -> titles_unique d).
Proof.
  assert (K : forall d : StaffDb.t,
    titles_unique d ->
    (forall title,
        titles_unique (stored_after (Example1.get_or_create_post title d)))
    /\ (forall fk name post year,
           titles_unique (stored_after (Example1.add_worker fk name post year d)))).
  { intros d Hu. split.
    - intros title.
      destruct (get_or_create_post_stored d title) as [-> | [i L]];
        [exact Hu | now apply (looked_up_keeps_titles d title i)].
    - intros fk name post year.
      destruct (add_worker_stored fk d name post year)
        as [-> | [pid [d1 [L [-> | [wid ->]]]]]]; [exact Hu | |].
      + now apply (looked_up_keeps_titles d post pid d1).
      + unfold titles_unique. cbn [StaffDb.posts_table].
        now apply (looked_up_keeps_titles d post pid d1). }
  split; [exact K |].
  induction 1 as [| d title _ IH | d fk name post year _ IH].
  - constructor.
  - now apply (proj1 (K d IH)).
  - now apply (proj2 (K d IH)).
Qed.

Lemma engineers_titles_unique : titles_unique engineers.
Proof.
  unfold titles_unique. simpl.
  repeat constructor; simpl; intuition discriminate.
Qed.

Lemma post_titles_stay_unique_witness :
  titles_unique (stored_after (Example1.get_or_create_post "Clerk" engineers))
  /\ titles_unique
       (stored_after (Example1.add_worker false "Carol" "Driver" 2020 engineers))
  /\ titles_unique
       (stored_after (Example1.add_worker false "Alice" "Engineer" 2015 StaffDb.empty)).
Proof.
  split; [| split].
  - exact (proj1 (proj1 post_titles_stay_unique engineers engineers_titles_unique)
                 "Clerk").
  - exact (proj2 (proj1 post_titles_stay_unique engineers engineers_titles_unique)
                 false "Carol" "Driver" 2020).
  - exact (proj2 post_titles_stay_unique _
             (reach_worker StaffDb.empty false "Alice" "Engineer" 2015 reach_empty)).
Defined.

(** ** From a command to the table of workers *)

Lemma display_workers_shows (workers : list Example1.Worker.t) (w : Example1.Worker.t) :
  In w workers ->
  Substring (Example1.Worker.name w) (stdout_of (Example1.display_workers workers))
  /\ Substring (Example1.Worker.post w) (stdout_of (Example1.display_workers workers))
  /\ Substring (str_int (Example1.Worker.year w))
       (stdout_of (Example1.display_workers workers)).
Proof.
  intros Hw.
  assert (Hne : workers <> []) by (intros ->; destruct Hw).
  destruct (display_workers_table workers Hne) as [line ->].
  destruct (in_enumerate workers w 1 Hw) as [i Hi].
  repeat split; in_record Hi.
Qed.

(** X17. On a database that satisfies the constraints of its schema,
    whose post ids are signed 64-bit integers, with a key left for a post
    and for a worker, and for a year that is a signed 64-bit integer, the
    [add] command of the staff program prints its confirmation and lets
    no exception escape, whether or not the engine enforces foreign keys,
    and the [display] command run next prints a table in which the name,
    the post title and the year just given occur.  For a year that is not
    a signed 64-bit integer, the [add] command prints nothing and lets an
    exception escape. *)
Theorem add_then_display
    (fk : bool) (year_now : Z) (d : StaffDb.t) (name post : string) (year : Z) :
  (StaffDb.primary_key_ok d -> StaffDb.foreign_key_ok d ->
   Sqlite.fits year = true -> StaffDb.post_ids_fit d = true ->
   StaffDb.post_keys_left d = true -> StaffDb.worker_keys_left d = true ->
   Example1.printed (Example1.main fk year_now (Example1.cmd_add name post year) d)
   = ["Работник " ++ name ++ " успешно добавлен!"]
   /\ Example1.escaped (Example1.main fk year_now (Example1.cmd_add name post year) d)
      = None
   /\ Forall
        (fun v =>
           Substring v
             (stdout_of
                (Example1.printed
                   (Example1.main fk year_now Example1.cmd_display
                      (Example1.stored
                         (Example1.main fk year_now
                            (Example1.cmd_add name post year) d))))))
        [name; post; str_int year])
  /\ (Sqlite.fits year = false ->
      Example1.printed (Example1.main fk year_now (Example1.cmd_add name post year) d)
      = []
      /\ exists e,
           Example1.escaped
             (Example1.main fk year_now (Example1.cmd_add name post year) d)
           = Some e).
Proof.
  split.
  - intros Hpk Hfk Hy Hfit Kp Kw.
    destruct (add_worker_then_all fk d name post year Hpk Hfk Hy Hfit Kp Kw)
      as [all [d' [_ [A G]]]].
    cbn [Example1.main]. rewrite A.
    cbn [Example1.printed Example1.escaped Example1.stored]. rewrite G.
    cbn [Example1.printed].
    split; [reflexivity | split; [reflexivity |]].
    assert (Hin : In (Example1.Worker.mk name post year)
                     (all ++ [Example1.Worker.mk name post year])%list)
      by (apply in_or_app; right; now left).
    destruct (display_workers_shows _ _ Hin) as [Hn [Hp Hy']].
    repeat constructor; assumption.
  - intros Hy. cbn [Example1.main].
    destruct (add_worker_spec fk d name post year)
      as [[_ A] | [pid [d1 [_ [_ [[_ A] | [[C _] | [C _]]]]]]]].
    + rewrite A. split; [reflexivity | now eexists].
    + rewrite A. split; [reflexivity | now eexists].
    + rewrite Hy, andb_false_r in C. discriminate C.
    + rewrite Hy, andb_false_r in C. discriminate C.
Qed.

Lemma add_then_display_witness :
  Forall
    (fun v =>
       Substring v
         (stdout_of
            (Example1.printed
               (Example1.main false 2026 Example1.cmd_display
                  (Example1.stored
                     (Example1.main false 2026
                        (Example1.cmd_add "Carol" "Driver" 2020) engineers))))))
    ["Carol"; "Driver"; str_int 2020]
  /\ Example1.printed
       (Example1.main false 2026
          (Example1.cmd_add "Carol" "Driver" 9223372036854775808) engineers)
     = [].
Proof.
  split.
  - exact (proj2 (proj2 (proj1 (add_then_display false 2026 engineers
                                  "Carol" "Driver" 2020)
                           engineers_keys_ok engineers_references_ok
                           eq_refl eq_refl eq_refl eq_refl))).
  - exact (proj1 (proj2 (add_then_display false 2026 engineers
                           "Carol" "Driver" 9223372036854775808) eq_refl)).
Defined.

(** * The width of the tables *)

Lemma py_len_app (a b : string) : py_len (a ++ b) = (py_len a + py_len b)%nat.
Proof.
  induction a as [|c a IH]; [reflexivity |].
  cbn [append py_len]. rewrite IH. apply Nat.add_assoc.
Qed.

Lemma py_len_spaces (n : nat) : py_len (repeat_str " " n) = n.
Proof.
  induction n as [|n IH]; [reflexivity |].
  cbn [repeat_str]. rewrite py_len_app, IH. reflexivity.
Qed.

Lemma py_len_dashes (n : nat) : py_len (repeat_str "-" n) = n.
Proof.
  induction n as [|n IH]; [reflexivity |].
  cbn [repeat_str]. rewrite py_len_app, IH. reflexivity.
Qed.

(** A cell takes the width of its column, or that of its content when
    the content is wider: nothing is cut. *)
Lemma py_len_center (w : nat) (s : string) :
  py_len (center w s) = Nat.max w (py_len s).
Proof.
  unfold center. destruct (w <=? py_len s)%nat eqn:E.
  - apply Nat.leb_le in E. lia.
  - apply Nat.leb_gt in E.
    rewrite !py_len_app, !py_len_spaces.
    assert (H : ((w - py_len s) / 2 <= w - py_len s)%nat).
    { apply Nat.Div0.div_le_upper_bound. lia. }
    lia.
Qed.

Ltac widths :=
  repeat rewrite py_len_app; repeat rewrite py_len_center;
  repeat rewrite py_len_dashes;
  cbn [py_len is_continuation andb negb Nat.add]; lia.

Lemma display_workers_lines (workers : list Example1.Worker.t) :
  workers <> [] ->
  Example1.display_workers workers
  = ([workers_border;
      Example1.worker_cells "№" "Ф.И.О." "Должность" "Год";
      workers_border]
     ++ map (fun iw =>
               Example1.worker_cells (str_int (fst iw))
                 (Example1.Worker.name (snd iw)) (Example1.Worker.post (snd iw))
                 (str_int (Example1.Worker.year (snd iw))))
            (Example1.enumerate 1 workers)
     ++ [workers_border])%list.
Proof. destruct workers; [contradiction | reflexivity]. Qed.

(** X18. In the table of a non-empty list of workers, the border, which
    is the first and the last line, is 75 characters wide, while the
    header and every row are at least 77 characters wide, whatever the
    records hold: the border never spans the rows. *)
Theorem display_workers_widths (workers : list Example1.Worker.t) :
  workers <> [] ->
  hd_error (Example1.display_workers workers) = Some workers_border
  /\ last (Example1.display_workers workers) "" = workers_border
  /\ py_len workers_border = 75%nat
  /\ forall line,
       In line (Example1.display_workers workers) ->
       line = workers_border \/ (77 <= py_len line)%nat.
Proof.
  intros Hne. rewrite (display_workers_lines workers Hne).
  split; [reflexivity |].
  split; [now rewrite !app_assoc, last_last |].
  split; [reflexivity |].
  intros line Hin. cbn [app In] in Hin.
  destruct Hin as [<- | [<- | [<- | Hin]]]; [now left | right | now left |].
  - vm_compute. lia.
  - apply in_app_or in Hin. destruct Hin as [Hin | [<- | []]]; [| now left].
    right. apply in_map_iff in Hin. destruct Hin as [[i w] [<- _]].
    unfold Example1.worker_cells. widths.
Qed.

Lemma display_workers_widths_witness :
  hd_error (Example1.display_workers [Example1.Worker.mk "Alice" "Engineer" 2015])
  = Some workers_border
  /\ last (Example1.display_workers [Example1.Worker.mk "Alice" "Engineer" 2015]) ""
     = workers_border
  /\ py_len workers_border = 75%nat
  /\ forall line,
       In line (Example1.display_workers [Example1.Worker.mk "Alice" "Engineer" 2015]) ->
       line = workers_border \/ (77 <= py_len line)%nat.
Proof.
  apply (display_workers_widths [Example1.Worker.mk "Alice" "Engineer" 2015]).
  discriminate.
Defined.

Lemma display_owners_lines (owners : list Zad1.Owner.t) :
  owners <> [] ->
  Zad1.display_owners owners
  = ([owners_border; Zad1.owner_cells "ID" "Имя владельца" "Телефон"; owners_border]
     ++ map (fun owner =>
               Zad1.owner_cells (str_int (Zad1.Owner.id owner))
                 (Zad1.Owner.name owner) (Zad1.Owner.phone owner)) owners
     ++ [owners_border])%list.
Proof. destruct owners; [contradiction | reflexivity]. Qed.

Lemma display_pets_lines (pets : list Zad1.Pet.t) (show_owner : bool) :
  pets <> [] ->
  Zad1.display_pets pets show_owner
  = ([pets_border show_owner;
      if show_owner
      then Zad1.pet_cells6 "ID" "Кличка" "Вид" "Порода" "Возраст" "ID владельца"
      else Zad1.pet_cells5 "ID" "Кличка" "Вид" "Порода" "Возраст";
      pets_border show_owner]
     ++ map (fun pet =>
               if show_owner
               then Zad1.pet_cells6 (str_int (Zad1.Pet.id pet)) (Zad1.Pet.name pet)
                      (Zad1.Pet.species pet) (Zad1.Pet.breed pet)
                      (str_int (Zad1.Pet.age pet)) (str_int (Zad1.Pet.owner_id pet))
               else Zad1.pet_cells5 (str_int (Zad1.Pet.id pet)) (Zad1.Pet.name pet)
                      (Zad1.Pet.species pet) (Zad1.Pet.breed pet)
                      (str_int (Zad1.Pet.age pet)))
            pets
     ++ [pets_border show_owner])%list.
Proof. destruct pets; [contradiction | now destruct show_owner]. Qed.

(** X19. In the tables of the pets program the border, which is the
    first line, is narrower than every other line, whatever the records
    hold: 50 characters against at least 56 for the owners; 68 against at
    least 78 for the pets without the owner column, and 84 against at
    least 96 with it. *)
Theorem pets_tables_widths :
  (forall owners : list Zad1.Owner.t,
      owners <> [] ->
      hd_error (Zad1.display_owners owners) = Some owners_border
      /\ py_len owners_border = 50%nat
      /\ forall line,
           In line (Zad1.display_owners owners) ->
           line = owners_border \/ (56 <= py_len line)%nat)
  /\ (forall (pets : list Zad1.Pet.t) (show_owner : bool),
        pets <> [] ->
        hd_error (Zad1.display_pets pets show_owner) = Some (pets_border show_owner)
        /\ py_len (pets_border show_owner) = (if show_owner then 84 else 68)%nat
        /\ forall line,
             In line (Zad1.display_pets pets show_owner) ->
             line = pets_border show_owner
             \/ ((if show_owner then 96 else 78) <= py_len line)%nat).
Proof.
  split.
  - intros owners Hne. rewrite (display_owners_lines owners Hne).
    split; [reflexivity | split; [reflexivity |]].
    intros line Hin. cbn [app In] in Hin.
    destruct Hin as [<- | [<- | [<- | Hin]]]; [now left | right | now left |].
    + vm_compute. lia.
    + apply in_app_or in Hin. destruct Hin as [Hin | [<- | []]]; [| now left].
      right. apply in_map_iff in Hin. destruct Hin as [o [<- _]].
      unfold Zad1.owner_cells. widths.
  - intros pets show_owner Hne. rewrite (display_pets_lines pets show_owner Hne).
    split; [reflexivity | split; [now destruct show_owner |]].
    intros line Hin. cbn [app In] in Hin.
    destruct Hin as [<- | [<- | [<- | Hin]]]; [now left | right | now left |].
    + destruct show_owner; vm_compute; lia.
    + apply in_app_or in Hin. destruct Hin as [Hin | [<- | []]]; [| now left].
      right. apply in_map_iff in Hin. destruct Hin as [p [<- _]].
      destruct show_owner; [unfold Zad1.pet_cells6 | unfold Zad1.pet_cells5];
        widths.
Qed.

Lemma pets_tables_widths_witness :
  hd_error (Zad1.display_owners [Zad1.Owner.mk 1 "Ann" "555"]) = Some owners_border
  /\ py_len owners_border = 50%nat
  /\ forall line,
       In line (Zad1.display_owners [Zad1.Owner.mk 1 "Ann" "555"]) ->
       line = owners_border \/ (56 <= py_len line)%nat.
Proof.
  apply (proj1 pets_tables_widths [Zad1.Owner.mk 1 "Ann" "555"]).
  discriminate.
Defined.

(** * Creating a post changes no listing *)

Lemma looked_up_listing_same (d : StaffDb.t) (t : string) (i : Z) (d1 : StaffDb.t) :
  looked_up d t i d1 -> StaffDb.foreign_key_ok d ->
  flat_map (StaffDb.join_posts d1) (StaffDb.workers_table d1)
  = flat_map (StaffDb.join_posts d) (StaffDb.workers_table d).
Proof.
  intros L Hfk.
  assert (Hw : StaffDb.workers_table d1 = StaffDb.workers_table d)
    by (destruct L as [p _ _ _ -> | _ _ ->]; reflexivity).
  rewrite Hw. apply flat_map_same. intros w Hin.
  change (StaffDb.join_posts d1 w)
    with (StaffDb.join_posts (StaffDb.mk (StaffDb.posts_table d1) []) w).
  apply (looked_up_join_same d t i d1 [] w L). now apply Hfk.
Qed.

(** X8. When every stored worker refers to a stored post, a call of
    [get_or_create_post], whether it finds the title, creates it or
    raises, changes neither what [get_all_workers] returns nor what
    [select_by_period] returns, for any year and period. *)
Theorem get_or_create_post_keeps_listings
    (d : StaffDb.t) (title : string) (year_now period : Z) :
  StaffDb.foreign_key_ok d ->
  result_of (Example1.get_all_workers
               (stored_after (Example1.get_or_create_post title d)))
  = result_of (Example1.get_all_workers d)
  /\ result_of (Example1.select_by_period year_now period
                  (stored_after (Example1.get_or_create_post title d)))
     = result_of (Example1.select_by_period year_now period d).
Proof.
  intros Hfk.
  destruct (get_or_create_post_stored d title) as [-> | [i L]]; [now split |].
  pose proof (looked_up_listing_same d title i _ L Hfk) as E.
  split.
  - unfold Example1.get_all_workers, bind, StaffDb.select_workers, query, ret,
      result_of. cbn [fst]. now rewrite E.
  - destruct (Sqlite.fits period) eqn:Hp.
    + rewrite !(select_by_period_eq _ year_now period Hp).
      unfold result_of. cbn [fst]. now rewrite E.
    + now rewrite !(select_by_period_too_large _ year_now period Hp).
Qed.

Lemma get_or_create_post_keeps_listings_witness :
  result_of (Example1.get_all_workers
               (stored_after (Example1.get_or_create_post "Driver" engineers)))
  = result_of (Example1.get_all_workers engineers)
  /\ result_of (Example1.select_by_period 2026 8
                  (stored_after (Example1.get_or_create_post "Driver" engineers)))
     = result_of (Example1.select_by_period 2026 8 engineers).
Proof.
  exact (get_or_create_post_keeps_listings engineers "Driver" 2026 8
           engineers_references_ok).
Defined.
